(** * The conversation aggregate of Syntelligence's conversation service

    A shallow embedding of
    [src/services/conversation_service/src/domain/models/message.py],
    [.../models/conversation.py] and [.../domain/exceptions.py], and the
    properties of the aggregate stated over it.

    Python objects are embedded by value.  A method is a computation over
    the pair of its receiver ([self]) and the ambient world (the wall clock
    read by [datetime.utcnow] and the source of [uuid4]); it ends either
    normally or by raising, and in both cases leaves a receiver behind, so
    that "unchanged on failure" is a statement about the code and not about
    the encoding. *)

From Stdlib Require Import ZArith NArith Ascii String Lia.
From stdpp Require Import base tactics option list strings gmap sorting.

Local Open Scope Z_scope.

(** ** Python values *)

(** A Python [str] is a sequence of Unicode code points. *)
Abbreviation str := (list N) (only parsing).

(** The code points of an ASCII literal. *)
Definition py (s : string) : list N :=
  List.map N_of_ascii (list_ascii_of_string s).

(** [uuid.UUID]: a 128-bit number. *)
Abbreviation UUID := N (only parsing).

(** A naive [datetime], as [datetime.utcnow] gives them: microseconds since
    the epoch.  Naive datetimes are totally ordered by [<], which is all
    [sorted] asks of its keys.  A timezone-aware [datetime], which Python
    refuses to compare with a naive one ([TypeError]), is not a value of
    this type: every timestamp of the model is naive. *)
Abbreviation datetime := Z (only parsing).

(** The values a metadata [Dict] of the model may hold. *)
Inductive PyObject : Type :=
  | PyNone
  | PyBool (b : bool)
  | PyInt (z : Z)
  | PyStr (s : list N).

(** [Py_UNICODE_ISSPACE]: the code points [str.strip()] removes, CPython's
    [_PyUnicode_IsWhitespace] table (bidirectional type WS, B or S, or
    category Zs). *)
Definition Py_UNICODE_ISSPACE (ch : N) : bool :=
  bool_decide (ch ∈
    [ 0x0009; 0x000A; 0x000B; 0x000C; 0x000D; 0x001C; 0x001D; 0x001E;
      0x001F; 0x0020; 0x0085; 0x00A0; 0x1680; 0x2000; 0x2001; 0x2002;
      0x2003; 0x2004; 0x2005; 0x2006; 0x2007; 0x2008; 0x2009; 0x200A;
      0x2028; 0x2029; 0x202F; 0x205F; 0x3000 ]%N).

(** [str.lstrip()]: drop the leading whitespace. *)
Fixpoint lstrip (s : list N) : list N :=
  match s with
  | [] => []
  | ch :: s' => if Py_UNICODE_ISSPACE ch then lstrip s' else s
  end.

(** [str.rstrip()]: drop the trailing whitespace. *)
Definition rstrip (s : list N) : list N := reverse (lstrip (reverse s)).

(** [str.strip()]: CPython's [do_strip] moves a left index past the leading
    whitespace, then a right index back over the trailing whitespace, and
    returns the slice between them. *)
Definition strip (s : list N) : list N := rstrip (lstrip s).

(** Truth value of a [str]: false exactly for the empty string. *)
Definition truthy (s : list N) : bool :=
  match s with [] => false | _ :: _ => true end.

(** [lst[:stop]] for an [int] stop, as [PySlice_AdjustIndices] clips it: a
    negative stop counts from the end, and both ends clip to the list. *)
Definition slice_to {A : Type} (l : list A) (stop : Z) : list A :=
  let n := Z.of_nat (length l) in
  let stop' := if stop <? 0 then Z.max 0 (n + stop) else Z.min stop n in
  take (Z.to_nat stop') l.

(** ** Exceptions ([domain/exceptions.py] and the builtins it rests on) *)

Inductive ExcClass : Type :=
  | BaseException
  | Exception
  | ValueError
  | DomainException
  | ValidationError
  | EntityNotFoundError
  | PermissionError
  | BusinessRuleViolationError
  | RepositoryError
  | EventPublishingError.

#[global] Instance ExcClass_eq_dec : EqDecision ExcClass.
Proof. solve_decision. Defined.

(** The base class each class statement names. *)
Definition base_of (c : ExcClass) : option ExcClass :=
  match c with
  | BaseException => None
  | Exception => Some BaseException
  | ValueError => Some Exception
  | DomainException => Some Exception
  | ValidationError
  | EntityNotFoundError
  | PermissionError
  | BusinessRuleViolationError
  | RepositoryError
  | EventPublishingError => Some DomainException
  end.

(** Method resolution order; the hierarchy is four classes deep. *)
Fixpoint mro_upto (fuel : nat) (c : ExcClass) : list ExcClass :=
  c :: match fuel, base_of c with
       | S fuel', Some b => mro_upto fuel' b
       | _, _ => []
       end.

Definition mro (c : ExcClass) : list ExcClass := mro_upto 4 c.

Definition issubclass (c d : ExcClass) : bool := bool_decide (d ∈ mro c).

(** A raised exception: its class and the message it was built with. *)
Record PyExc : Type := mkExc { exc_class : ExcClass; exc_msg : string }.

Definition isinstance (e : PyExc) (c : ExcClass) : bool :=
  issubclass (exc_class e) c.

(** ** Computations: state, and termination by [return] or by [raise] *)

Inductive Outcome (A : Type) : Type :=
  | Return (a : A)
  | Raise (e : PyExc).
Arguments Return {A} a.
Arguments Raise {A} e.

Definition Py (St A : Type) : Type := St -> Outcome A * St.

Definition ret {St A : Type} (a : A) : Py St A := fun st => (Return a, st).

Definition bind {St A B : Type} (m : Py St A) (k : A -> Py St B) : Py St B :=
  fun st =>
    match m st with
    | (Return a, st') => k a st'
    | (Raise e, st') => (Raise e, st')
    end.

Definition raise {St A : Type} (c : ExcClass) (msg : string) : Py St A :=
  fun st => (Raise (mkExc c msg), st).

Declare Scope py_scope.
Delimit Scope py_scope with py.
Notation "x <- m ;; k" := (bind m (fun x => k))
  (at level 100, m at next level, right associativity) : py_scope.
Notation "m ;;; k" := (bind m (fun _ => k))
  (at level 100, right associativity) : py_scope.

(** The outcome fails with (an instance of) class [c]. *)
Definition fails_with {A : Type} (o : Outcome A) (c : ExcClass) : Prop :=
  match o with
  | Return _ => False
  | Raise e => isinstance e c = true
  end.

Definition fails {A : Type} (o : Outcome A) : Prop := fails_with o BaseException.

Definition succeeds {A : Type} (o : Outcome A) : Prop :=
  match o with Return _ => True | Raise _ => False end.

(** ** The ambient world *)

(** [datetime.utcnow()] and [uuid4()] read process-wide state.  The world
    holds what each successive call will answer and how many calls were
    made so far. *)
Record World : Type := mkWorld {
  utcnow_readings : nat -> Z;
  uuid4_draws : nat -> N;
  clock_reads : nat;
  uuid_reads : nat
}.

Definition datetime_utcnow : Py World Z := fun w =>
  (Return (utcnow_readings w (clock_reads w)),
   mkWorld (utcnow_readings w) (uuid4_draws w) (S (clock_reads w)) (uuid_reads w)).

Definition uuid4 : Py World N := fun w =>
  (Return (uuid4_draws w (uuid_reads w)),
   mkWorld (utcnow_readings w) (uuid4_draws w) (clock_reads w) (S (uuid_reads w))).

(** A dataclass field with a [default_factory]: the factory runs only when
    the caller passed no value. *)
Definition default_factory {A : Type} (factory : Py World A) (arg : option A)
  : Py World A :=
  match arg with
  | Some a => ret a
  | None => factory
  end.

(** Inside a method: the receiver and the world. *)
Definition in_world {T A : Type} (m : Py World A) : Py (T * World) A :=
  fun st =>
    match m (snd st) with
    | (r, w') => (r, (fst st, w'))
    end.

Definition get_self {T : Type} : Py (T * World) T :=
  fun st => (Return (fst st), st).

(** An attribute assignment [self.f = v]. *)
Definition assign {T : Type} (upd : T -> T) : Py (T * World) unit :=
  fun st => (Return tt, (upd (fst st), snd st)).

(** ** [message.py] *)

Inductive MessageType : Type := USER | AI | SYSTEM.

#[global] Instance MessageType_eq_dec : EqDecision MessageType.
Proof. solve_decision. Defined.

(** The [value] of each member of the enum. *)
Definition MessageType_value (t : MessageType) : list N :=
  match t with
  | USER => py "user"
  | AI => py "ai"
  | SYSTEM => py "system"
  end.

Module Message.

Record Message : Type := mk {
  content : str;
  sender_id : UUID;
  message_type : MessageType;
  conversation_id : UUID;
  id : UUID;
  timestamp : datetime;
  metadata : gmap (list N) PyObject
}.

(** The [__init__] that [@dataclass] generates: the four required fields,
    then the three with a [default_factory], each factory called in field
    order when its argument is absent.  There is no [__post_init__]. *)
Definition __init__ (content : str) (sender_id : UUID)
    (message_type : MessageType) (conversation_id : UUID)
    (id : option UUID) (timestamp : option datetime)
    (metadata : option (gmap (list N) PyObject)) : Py World Message :=
  (id' <- default_factory uuid4 id ;;
   timestamp' <- default_factory datetime_utcnow timestamp ;;
   metadata' <- default_factory (ret ∅) metadata ;;
   ret (mk content sender_id message_type conversation_id
           id' timestamp' metadata'))%py.

(** [Message(content, sender_id, message_type, conversation_id)]. *)
Definition create (content : str) (sender_id : UUID)
    (message_type : MessageType) (conversation_id : UUID) : Py World Message :=
  __init__ content sender_id message_type conversation_id None None None.

Definition is_user_message (self : Message) : bool :=
  bool_decide (message_type self = USER).

Definition is_ai_message (self : Message) : bool :=
  bool_decide (message_type self = AI).

Definition is_system_message (self : Message) : bool :=
  bool_decide (message_type self = SYSTEM).

Definition set_content (v : str) (self : Message) : Message :=
  mk v (sender_id self) (message_type self) (conversation_id self)
     (id self) (timestamp self) (metadata self).

Definition set_metadata (v : gmap (list N) PyObject) (self : Message) : Message :=
  mk (content self) (sender_id self) (message_type self) (conversation_id self)
     (id self) (timestamp self) v.

(** [update_content]: the guard is [not new_content], or
    [new_content.strip()] equal to the empty string. *)
Definition update_content (new_content : str) : Py (Message * World) unit :=
  if negb (truthy new_content) || bool_decide (strip new_content = [])
  then raise ValueError "Message content cannot be empty"
  else assign (set_content new_content).

(** [add_metadata]: [self.metadata[key] = value]. *)
Definition add_metadata (key : str) (value : PyObject)
  : Py (Message * World) unit :=
  assign (fun self => set_metadata (<[key := value]> (metadata self)) self).

End Message.

(** ** [conversation.py] *)

(** [sorted(iterable, key=..., reverse=...)] builds a new list and sorts it
    with [list.sort].  [list.sort] is a stable sort on the keys that
    compares with [<] only; with [reverse=True] it reverses the list, sorts
    it the same stable way, and reverses the result, which is how equal
    keys keep their original order in a descending sort.

    The stable ascending pass is written as an insertion sort.  A list has
    one stable rearrangement sorted by key ([stable_sorted_unique] below),
    so this pass returns what CPython's merge sort returns. *)
Section Sorted.
Context {A : Type} (key : A -> Z).

(** Insert [x] into a sorted list: step over the elements whose key is
    smaller ([key y < key x]) and stop before the first that is not, so
    before the elements equal to [x]. *)
Fixpoint insert_by (x : A) (l : list A) : list A :=
  match l with
  | [] => [x]
  | y :: l' => if key y <? key x then y :: insert_by x l' else x :: l
  end.

(** Stable ascending sort: the head is inserted into the sorted tail, and
    lands before its equals, which followed it in the input. *)
Fixpoint stable_sort (l : list A) : list A :=
  match l with
  | [] => []
  | x :: l' => insert_by x (stable_sort l')
  end.

(** [list.sort(key=key, reverse=reverse)] on a fresh copy of the input. *)
Definition sorted (reverse_ : bool) (l : list A) : list A :=
  if reverse_ then reverse (stable_sort (reverse l)) else stable_sort l.

End Sorted.

Module Conversation.

Record Conversation : Type := mk {
  title : str;
  created_by : UUID;
  id : UUID;
  created_at : datetime;
  updated_at : datetime;
  is_archived : bool;
  messages : list Message.Message
}.

(** The [__init__] that [@dataclass] generates.  [created_at] and
    [updated_at] each have their own [default_factory=datetime.utcnow]:
    two calls, in field order. *)
Definition __init__ (title : str) (created_by : UUID)
    (id : option UUID) (created_at updated_at : option datetime)
    (is_archived : option bool) (messages : option (list Message.Message))
  : Py World Conversation :=
  (id' <- default_factory uuid4 id ;;
   created_at' <- default_factory datetime_utcnow created_at ;;
   updated_at' <- default_factory datetime_utcnow updated_at ;;
   is_archived' <- default_factory (ret false) is_archived ;;
   messages' <- default_factory (ret []) messages ;;
   ret (mk title created_by id' created_at' updated_at' is_archived' messages'))%py.

(** [Conversation(title, created_by)]. *)
Definition create (title : str) (created_by : UUID) : Py World Conversation :=
  __init__ title created_by None None None None None.

Definition set_title (v : str) (self : Conversation) : Conversation :=
  mk v (created_by self) (id self) (created_at self) (updated_at self)
     (is_archived self) (messages self).

Definition set_updated_at (v : datetime) (self : Conversation) : Conversation :=
  mk (title self) (created_by self) (id self) (created_at self) v
     (is_archived self) (messages self).

Definition set_is_archived (v : bool) (self : Conversation) : Conversation :=
  mk (title self) (created_by self) (id self) (created_at self) (updated_at self)
     v (messages self).

Definition set_messages (v : list Message.Message) (self : Conversation)
  : Conversation :=
  mk (title self) (created_by self) (id self) (created_at self) (updated_at self)
     (is_archived self) v.

(** [self.updated_at = datetime.utcnow()]. *)
Definition touch : Py (Conversation * World) unit :=
  (now <- in_world datetime_utcnow ;;
   assign (set_updated_at now))%py.

(** [add_message]: [self.messages.append(message)], then the timestamp. *)
Definition add_message (message : Message.Message)
  : Py (Conversation * World) unit :=
  (assign (fun self => set_messages (messages self ++ [message]) self) ;;;
   touch)%py.

(** [update_title]: the guard is [not new_title], or [new_title.strip()]
    equal to the empty string. *)
Definition update_title (new_title : str) : Py (Conversation * World) unit :=
  if negb (truthy new_title) || bool_decide (strip new_title = [])
  then raise ValueError "Conversation title cannot be empty"
  else (assign (set_title new_title) ;;; touch)%py.

Definition archive : Py (Conversation * World) unit :=
  (assign (set_is_archived true) ;;; touch)%py.

Definition unarchive : Py (Conversation * World) unit :=
  (assign (set_is_archived false) ;;; touch)%py.

(** [get_latest_messages]:
    [sorted(self.messages, key=lambda m: m.timestamp, reverse=True)[:limit]]. *)
Definition get_latest_messages (limit : Z)
  : Py (Conversation * World) (list Message.Message) :=
  (self <- get_self ;;
   ret (slice_to (sorted Message.timestamp true (messages self)) limit))%py.

(** The default of the [limit] parameter. *)
Definition get_latest_messages_default
  : Py (Conversation * World) (list Message.Message) :=
  get_latest_messages 10.

End Conversation.

(** ** Sequences of calls *)

(** Call [f] on each argument in turn; a raise ends the sequence, as it
    would end the caller's loop. *)
Fixpoint call_each {St A : Type} (f : A -> Py St unit) (args : list A)
  : Py St unit :=
  match args with
  | [] => ret tt
  | a :: args' => (f a ;;; call_each f args')%py
  end.

(** The state left behind by each call of the sequence. *)
Fixpoint states_after {St A : Type} (f : A -> Py St unit) (args : list A)
    (st : St) : list St :=
  match args with
  | [] => []
  | a :: args' =>
      match f a st with
      | (Return _, st') => st' :: states_after f args' st'
      | (Raise _, st') => [st']
      end
  end.

(** The operations of the aggregate, as a caller may issue them. *)
Inductive Op : Type :=
  | AddMessage (message : Message.Message)
  | UpdateTitle (new_title : list N)
  | Archive
  | Unarchive
  | GetLatestMessages (limit : Z).

Definition run_op (op : Op) : Py (Conversation.Conversation * World) unit :=
  match op with
  | AddMessage m => Conversation.add_message m
  | UpdateTitle t => Conversation.update_title t
  | Archive => Conversation.archive
  | Unarchive => Conversation.unarchive
  | GetLatestMessages k => (Conversation.get_latest_messages k ;;; ret tt)%py
  end.

(** ** The vocabulary of the specification *)

(** Whitespace-only: every code point is one [str.strip()] removes. *)
Definition whitespace_only (s : list N) : Prop :=
  Forall (fun ch => Py_UNICODE_ISSPACE ch = true) s.

(** Empty or whitespace-only. *)
Definition blank (s : list N) : Prop := s = [] \/ whitespace_only s.

(** Successive readings of the clock do not decrease. *)
Definition clock_monotone (w : World) : Prop :=
  forall i j : nat, (i <= j)%nat -> utcnow_readings w i <= utcnow_readings w j.

(** What the next call of [datetime.utcnow()] answers, and the world after
    that call. *)
Definition now (w : World) : Z := utcnow_readings w (clock_reads w).

Definition ticked (w : World) : World :=
  mkWorld (utcnow_readings w) (uuid4_draws w) (S (clock_reads w)) (uuid_reads w).

(** Every message of the conversation carries the conversation's id. *)
Definition messages_belong (c : Conversation.Conversation) : Prop :=
  Forall (fun m => Message.conversation_id m = Conversation.id c)
         (Conversation.messages c).

(** The caller's obligation towards [add_message]: the message added names
    this conversation. *)
Definition own_message (c : Conversation.Conversation) (op : Op) : Prop :=
  match op with
  | AddMessage m => Message.conversation_id m = Conversation.id c
  | _ => True
  end.

(** Most recent first. *)
Definition newest_first (l : list Message.Message) : Prop :=
  StronglySorted (fun a b => Message.timestamp b <= Message.timestamp a) l.

(** The messages of [l] stamped [t], in the order [l] has them. *)
Definition stamped (t : Z) (l : list Message.Message) : list Message.Message :=
  filter (fun m => Message.timestamp m = t) l.

(** A world whose clock advances by one microsecond per reading and whose
    identifiers count up; and a conversation and messages to run on. *)
Definition ticking_world : World :=
  mkWorld (fun n => 1700000000000000 + Z.of_nat n) (fun n => N.of_nat (100 + n)) 0 0.

Definition sample_conversation : Conversation.Conversation :=
  Conversation.mk (py "Trip planning") 1%N 7%N 10 10 false [].

Definition sample_message (cid : N) (ts : Z) (text : string) : Message.Message :=
  Message.mk (py text) 1%N USER cid 50%N ts ∅.

(** The operations of a message, as a caller may issue them. *)
Inductive MessageOp : Type :=
  | UpdateContent (new_content : list N)
  | AddMetadata (key : list N) (value : PyObject).

Definition run_message_op (op : MessageOp) : Py (Message.Message * World) unit :=
  match op with
  | UpdateContent s => Message.update_content s
  | AddMetadata k v => Message.add_metadata k v
  end.

(** The messages a sequence of operations hands to [add_message]. *)
Fixpoint added_messages (ops : list Op) : list Message.Message :=
  match ops with
  | [] => []
  | AddMessage m :: ops' => m :: added_messages ops'
  | _ :: ops' => added_messages ops'
  end.

(** The classes [domain/exceptions.py] defines. *)
Definition domain_exceptions : list ExcClass :=
  [ DomainException; ValidationError; EntityNotFoundError; PermissionError;
    BusinessRuleViolationError; RepositoryError; EventPublishingError ].

(** ** [shared/infrastructure/health.py] *)

#[global] Instance PyObject_eq_dec : EqDecision PyObject.
Proof. solve_decision. Defined.

(** A [dict] with its keys in insertion order, which is the order [items()]
    yields them in.  [d[k] = v] replaces the value of a key that is there,
    in place, and puts a new key last. *)
Fixpoint odict_set {V : Type} (k : list N) (v : V) (d : list (list N * V))
  : list (list N * V) :=
  match d with
  | [] => [(k, v)]
  | (k', v') :: d' =>
      if decide (k' = k) then (k', v) :: d' else (k', v') :: odict_set k v d'
  end.

(** [d.get(k)]. *)
Fixpoint odict_get {V : Type} (k : list N) (d : list (list N * V)) : option V :=
  match d with
  | [] => None
  | (k', v') :: d' => if decide (k' = k) then Some v' else odict_get k d'
  end.

Module HealthStatus.

Definition UP : list N := py "up".
Definition DOWN : list N := py "down".
Definition DEGRADED : list N := py "degraded".

End HealthStatus.

Module HealthCheck.

(** A registered check is an awaitable that answers a [dict] or raises; it
    may read the world it runs in.  [check_health] awaits the checks one
    after the other, so a check is run to its end before the next starts. *)
Record HealthCheck : Type := mk {
  service_name : str;
  checks : list (list N * Py World (gmap (list N) PyObject));
  last_check_time : option datetime
}.

Definition __init__ (service_name : str) : HealthCheck :=
  mk service_name [] None.

Definition set_checks (v : list (list N * Py World (gmap (list N) PyObject)))
    (self : HealthCheck) : HealthCheck :=
  mk (service_name self) v (last_check_time self).

Definition set_last_check_time (v : option datetime) (self : HealthCheck)
  : HealthCheck :=
  mk (service_name self) (checks self) v.

(** [register_check]: [self.checks[name] = check_func]. *)
Definition register_check (name : str)
    (check_func : Py World (gmap (list N) PyObject))
  : Py (HealthCheck * World) unit :=
  assign (fun self => set_checks (odict_set name check_func (checks self)) self).

(** The [dict] that [check_health] returns. *)
Record Response : Type := mkResponse {
  service : str;
  status : str;
  timestamp : str;
  dependencies : list (list N * gmap (list N) PyObject)
}.

(** The loop of [check_health] over [self.checks.items()], from the values
    [results] and [overall_status] have when it is entered.  An exception
    that is an [Exception] is caught and recorded (the call of
    [logger.exception] writes a log record and nothing else); any other
    leaves the loop and the method. *)
Fixpoint for_checks (items : list (list N * Py World (gmap (list N) PyObject)))
    (results : list (list N * gmap (list N) PyObject)) (overall_status : list N)
  : Py World (list (list N * gmap (list N) PyObject) * list N) :=
  match items with
  | [] => ret (results, overall_status)
  | (name, check_func) :: items' => fun w =>
      match check_func w with
      | (Return result, w') =>
          for_checks items' (odict_set name result results)
            (if bool_decide (result !! py "status" = Some (PyStr HealthStatus.DOWN))
             then HealthStatus.DOWN
             else if bool_decide (result !! py "status"
                                  = Some (PyStr HealthStatus.DEGRADED))
                     && negb (bool_decide (overall_status = HealthStatus.DOWN))
                  then HealthStatus.DEGRADED
                  else overall_status)
            w'
      | (Raise e, w') =>
          if isinstance e Exception
          then for_checks items'
                 (odict_set name
                    (<[py "status" := PyStr HealthStatus.DOWN]>
                       (<[py "error" := PyStr (py (exc_msg e))]> ∅))
                    results)
                 HealthStatus.DOWN w'
          else (Raise e, w')
      end
  end.

(** [check_health].  [isoformat] stands for [datetime.isoformat], which
    the module takes from the standard library. *)
Definition check_health (isoformat : Z -> list N)
  : Py (HealthCheck * World) Response :=
  (now <- in_world datetime_utcnow ;;
   assign (set_last_check_time (Some now)) ;;;
   self <- get_self ;;
   r <- in_world (for_checks (checks self) [] HealthStatus.UP) ;;
   ret (mkResponse (service_name self) (snd r) (isoformat now ++ py "Z") (fst r)))%py.

End HealthCheck.

(** A dependency reports status [s]. *)
Definition reports (s : list N) (dep : gmap (list N) PyObject) : Prop :=
  dep !! py "status" = Some (PyStr s).

#[global] Instance reports_dec (s : list N) (dep : gmap (list N) PyObject) :
  Decision (reports s dep).
Proof. unfold reports. apply _. Defined.

(** What [check_health] records for a check that raised. *)
Definition failed_check (e : PyExc) : gmap (list N) PyObject :=
  <[py "status" := PyStr HealthStatus.DOWN]>
    (<[py "error" := PyStr (py (exc_msg e))]> ∅).

(** What the checks answer when run one after the other from world [w], up
    to and including the first that raises something that is no
    [Exception]. *)
Fixpoint check_outcomes (items : list (list N * Py World (gmap (list N) PyObject)))
    (w : World) : list (list N * Outcome (gmap (list N) PyObject)) :=
  match items with
  | [] => []
  | (name, check_func) :: items' =>
      match check_func w with
      | (Return result, w') => (name, Return result) :: check_outcomes items' w'
      | (Raise e, w') =>
          if isinstance e Exception
          then (name, Raise e) :: check_outcomes items' w'
          else [(name, Raise e)]
      end
  end.

(** The entry of [dependencies] for one outcome. *)
Definition dependency_of (o : Outcome (gmap (list N) PyObject))
  : gmap (list N) PyObject :=
  match o with
  | Return result => result
  | Raise e => failed_check e
  end.

(** Every outcome is a [dict] or an [Exception]. *)
Definition all_caught (os : list (list N * Outcome (gmap (list N) PyObject)))
  : Prop :=
  Forall (fun o => match snd o with
                   | Return _ => True
                   | Raise e => isinstance e Exception = true
                   end) os.

(** The overall status after one more dependency, as the loop updates it. *)
Definition worse (overall_status : list N) (dep : gmap (list N) PyObject)
  : list N :=
  if bool_decide (dep !! py "status" = Some (PyStr HealthStatus.DOWN))
  then HealthStatus.DOWN
  else if bool_decide (dep !! py "status" = Some (PyStr HealthStatus.DEGRADED))
          && negb (bool_decide (overall_status = HealthStatus.DOWN))
       then HealthStatus.DEGRADED
       else overall_status.

(** The checks registered by a sequence of [register_check] calls on a new
    [HealthCheck]. *)
Definition registered (service_name : list N)
    (regs : list (list N * Py World (gmap (list N) PyObject))) (w : World)
  : HealthCheck.HealthCheck :=
  fst (snd (call_each (fun r => HealthCheck.register_check (fst r) (snd r)) regs
              (HealthCheck.__init__ service_name, w))).

(** Three checks to run: one up, one degraded, one that raises. *)
Definition check_up : Py World (gmap (list N) PyObject) :=
  ret (<[py "status" := PyStr HealthStatus.UP]> ∅).

Definition check_degraded : Py World (gmap (list N) PyObject) :=
  ret (<[py "status" := PyStr HealthStatus.DEGRADED]> ∅).

Definition check_raising : Py World (gmap (list N) PyObject) :=
  raise Exception "connection refused".

(** ** [backend/tools/check_docstrings.py] *)

(** The classes of AST node [DocstringVisitor] has a method for, and the
    others: [ast.NodeVisitor.visit] sends a node of class [C] to
    [visit_C] when the visitor defines it and to [generic_visit]
    otherwise.  There is no [visit_AsyncFunctionDef]. *)
Inductive NodeClass : Type :=
  | NModule
  | NClassDef
  | NFunctionDef
  | NAsyncFunctionDef
  | NOther.

#[global] Instance NodeClass_eq_dec : EqDecision NodeClass.
Proof. solve_decision. Defined.

(** An AST node as the visitor reads it: its class, its [name] (of a class
    or function definition), what [ast.get_docstring] answers for it, and
    its child nodes in the order [generic_visit] goes through them. *)
#[warnings="-register-all"]
Inductive ast : Type :=
  | Node (cls : NodeClass) (name : list N) (docstring : option (list N))
         (children : list ast).

(** The keys of [stats] and [undocumented]. *)
Inductive ElementType : Type := Emodule | Eclass | Efunction | Emethod.

#[global] Instance ElementType_eq_dec : EqDecision ElementType.
Proof. solve_decision. Defined.

Module DocstringVisitor.

Record Counts : Type := mkCounts { total : nat; documented : nat }.

Record DocstringVisitor : Type := mk {
  stats : ElementType -> Counts;
  undocumented : ElementType -> list (list N);
  current_class : option (list N)
}.

Definition __init__ : DocstringVisitor :=
  mk (fun _ => mkCounts 0 0) (fun _ => []) None.

Definition set_current_class (v : option (list N)) (self : DocstringVisitor)
  : DocstringVisitor :=
  mk (stats self) (undocumented self) v.

(** Truth value of what [ast.get_docstring] answers, and of
    [self.current_class]: [None] and the empty string are false. *)
Definition truthy_opt (o : option (list N)) : bool :=
  match o with
  | Some s => truthy s
  | None => false
  end.

(** The step every [visit_] method makes: one more element of the type,
    documented when the node has a docstring, and otherwise listed under
    [label]. *)
Definition count (ty : ElementType) (docstring : option (list N))
    (label : list N) (self : DocstringVisitor) : DocstringVisitor :=
  if truthy_opt docstring
  then mk (fun ty' => if decide (ty' = ty)
                      then mkCounts (S (total (stats self ty')))
                                    (S (documented (stats self ty')))
                      else stats self ty')
          (undocumented self) (current_class self)
  else mk (fun ty' => if decide (ty' = ty)
                      then mkCounts (S (total (stats self ty')))
                                    (documented (stats self ty'))
                      else stats self ty')
          (fun ty' => if decide (ty' = ty)
                      then undocumented self ty' ++ [label]
                      else undocumented self ty')
          (current_class self).

(** [visit]: [visit_Module], [visit_ClassDef] and [visit_FunctionDef], each
    ending in [generic_visit], which visits the children in order; a node
    of another class goes to [generic_visit] directly. *)
Fixpoint visit (node : ast) (self : DocstringVisitor) {struct node}
  : DocstringVisitor :=
  match node with
  | Node cls name docstring children =>
      let generic_visit :=
        fix generic_visit (l : list ast) (self : DocstringVisitor) :=
          match l with
          | [] => self
          | child :: l' => generic_visit l' (visit child self)
          end in
      match cls with
      | NModule => generic_visit children (count Emodule docstring (py "module") self)
      | NClassDef =>
          let self1 := count Eclass docstring name self in
          let old_class := current_class self1 in
          let self2 := generic_visit children (set_current_class (Some name) self1) in
          set_current_class old_class self2
      | NFunctionDef =>
          if truthy_opt (current_class self)
          then generic_visit children
                 (count Emethod docstring
                    (default [] (current_class self) ++ py "." ++ name) self)
          else generic_visit children (count Efunction docstring name self)
      | NAsyncFunctionDef | NOther => generic_visit children self
      end
  end.

(** [generic_visit] on the children of a node. *)
Definition generic_visit (children : list ast) (self : DocstringVisitor)
  : DocstringVisitor :=
  foldl (fun self child => visit child self) self children.

(** [analyze_file] once the file is read and parsed: a new visitor visits
    the tree. *)
Definition analyze (tree : ast) : DocstringVisitor := visit tree __init__.

End DocstringVisitor.

(** The nodes of a tree whose class satisfies [p]. *)
Fixpoint count_nodes (p : NodeClass -> bool) (t : ast) : nat :=
  match t with
  | Node cls _ _ children =>
      (if p cls then 1 else 0)
      + (fix sum (l : list ast) : nat :=
           match l with
           | [] => 0
           | c :: l' => count_nodes p c + sum l'
           end) children
  end%nat.

(** Every class definition of the tree has a name, as every parsed one
    has. *)
Fixpoint classes_named (t : ast) : Prop :=
  match t with
  | Node cls name _ children =>
      (cls = NClassDef -> name <> []) /\
      (fix all (l : list ast) : Prop :=
         match l with
         | [] => True
         | c :: l' => classes_named c /\ all l'
         end) children
  end.

(** The counts of a visitor agree with its lists. *)
Definition consistent (v : DocstringVisitor.DocstringVisitor) : Prop :=
  forall ty : ElementType,
    (DocstringVisitor.documented (DocstringVisitor.stats v ty)
     <= DocstringVisitor.total (DocstringVisitor.stats v ty))%nat /\
    (length (DocstringVisitor.undocumented v ty)
     + DocstringVisitor.documented (DocstringVisitor.stats v ty)
     = DocstringVisitor.total (DocstringVisitor.stats v ty))%nat.

(** A module with a documented class of one documented and one
    undocumented method, a closure inside the latter, an undocumented
    function and an async function. *)
Definition sample_module : ast :=
  Node NModule [] (Some (py "A module."))
    [ Node NClassDef (py "Visitor") (Some (py "A class."))
        [ Node NFunctionDef (py "visit") (Some (py "Visit.")) [];
          Node NFunctionDef (py "helper") None
            [ Node NFunctionDef (py "inner") None [] ] ];
      Node NFunctionDef (py "main") None [ Node NOther [] None [] ];
      Node NAsyncFunctionDef (py "serve") None
        [ Node NFunctionDef (py "handler") None [] ] ].

(** A world whose clock is set back after its first reading, as a wall
    clock is when the system time is corrected. *)
Definition backwards_world : World :=
  mkWorld (fun n => match n with O => 5 | S _ => 3 end) (fun n => N.of_nat n) 0 0.

(** A check that reads the clock before it answers. *)
Definition check_reading_clock : Py World (gmap (list N) PyObject) :=
  (now <- datetime_utcnow ;;
   ret (<[py "status" := PyStr HealthStatus.UP]>
          (<[py "checked_at" := PyInt now]> ∅)))%py.

(** * Properties *)

(** ** Strings *)

Lemma lstrip_nil_iff (s : list N) : lstrip s = [] <-> whitespace_only s.
Proof.
  unfold whitespace_only. induction s as [|ch s IH]; simpl.
  - split; [constructor | reflexivity].
  - destruct (Py_UNICODE_ISSPACE ch) eqn:E.
    + rewrite IH. split.
      * intros H. by constructor.
      * by inversion 1.
    + split; [discriminate|].
      inversion 1; congruence.
Qed.

Lemma lstrip_snoc_keeps (s : list N) (ch : N) :
  Py_UNICODE_ISSPACE ch = false -> lstrip (s ++ [ch]) <> [].
Proof.
  intros Hch. induction s as [|c s IH]; simpl.
  - by rewrite Hch.
  - by destruct (Py_UNICODE_ISSPACE c).
Qed.

Lemma lstrip_head (s : list N) :
  lstrip s = [] \/
  exists ch r, lstrip s = ch :: r /\ Py_UNICODE_ISSPACE ch = false.
Proof.
  induction s as [|c s IH]; simpl; [by left|].
  destruct (Py_UNICODE_ISSPACE c) eqn:E; [done|].
  right. by exists c, s.
Qed.

(** [s.strip()] is the empty string exactly for the whitespace-only [s]. *)
Lemma strip_nil_iff (s : list N) : strip s = [] <-> whitespace_only s.
Proof.
  rewrite <- lstrip_nil_iff. unfold strip, rstrip. split.
  - intros H. destruct (lstrip_head s) as [E | (ch & r & E & Hch)]; [done|].
    rewrite E in H. rewrite reverse_cons in H.
    apply (f_equal reverse) in H. rewrite reverse_involutive in H.
    by apply lstrip_snoc_keeps in H.
  - intros ->. reflexivity.
Qed.

(** The guard both setters share rejects exactly the blank strings. *)
Lemma guard_true_iff (s : list N) :
  negb (truthy s) || bool_decide (strip s = []) = true <-> blank s.
Proof.
  unfold blank. rewrite orb_true_iff, bool_decide_eq_true, strip_nil_iff.
  destruct s; simpl; split; intros [?|?]; auto; try discriminate.
Qed.

Lemma guard_false_iff (s : list N) :
  negb (truthy s) || bool_decide (strip s = []) = false <-> ~ blank s.
Proof.
  rewrite <- guard_true_iff. by destruct (_ || _).
Qed.

Lemma blank_dec (s : list N) : blank s \/ ~ blank s.
Proof.
  rewrite <- guard_true_iff. destruct (_ || _); [by left | by right].
Qed.

(** ** Message *)

Lemma ValueError_is_not_a_ValidationError (msg : string) :
  isinstance (mkExc ValueError msg) ValueError = true /\
  isinstance (mkExc ValueError msg) ValidationError = false /\
  isinstance (mkExc ValueError msg) DomainException = false.
Proof. by vm_compute. Qed.

(** The constructor runs no validation: it returns for every argument. *)
Lemma message_init_returns content sender mtype cid id ts md (w : World) :
  exists m w',
    Message.__init__ content sender mtype cid id ts md w = (Return m, w') /\
    Message.content m = content /\ Message.sender_id m = sender /\
    Message.message_type m = mtype /\ Message.conversation_id m = cid.
Proof.
  unfold Message.__init__, bind, default_factory, ret, uuid4, datetime_utcnow.
  destruct id, ts, md; simpl; eauto 10.
Qed.

Lemma update_content_rejects (s : list N) (m : Message.Message) (w : World) :
  blank s ->
  Message.update_content s (m, w)
  = (Raise (mkExc ValueError "Message content cannot be empty"), (m, w)).
Proof.
  intros H. apply guard_true_iff in H.
  unfold Message.update_content. by rewrite H.
Qed.

Lemma update_content_accepts (s : list N) (m : Message.Message) (w : World) :
  ~ blank s ->
  Message.update_content s (m, w) = (Return tt, (Message.set_content s m, w)).
Proof.
  intros H. apply guard_false_iff in H.
  unfold Message.update_content. by rewrite H.
Qed.

(** C1, as stated, fails: a message is constructed with empty content, and
    with whitespace-only content, and the constructor returns it.  The only
    validation of content, in [update_content], raises the builtin
    [ValueError], which is no [ValidationError]. *)
Lemma message_create_accepts_blank_content :
  blank [] /\ blank (py "   ") /\
  (exists m w, Message.create [] 1%N USER 7%N ticking_world = (Return m, w)
               /\ Message.content m = []) /\
  (exists m w, Message.create (py "   ") 1%N USER 7%N ticking_world = (Return m, w)
               /\ Message.content m = py "   ") /\
  ~ fails_with (fst (Message.create [] 1%N USER 7%N ticking_world)) ValidationError /\
  ~ fails_with
      (fst (Message.update_content [] (sample_message 7%N 10 "hello", ticking_world)))
      ValidationError.
Proof.
  split; [by left|]. split; [right; unfold whitespace_only; by repeat constructor|].
  split; [eexists _, _; split; reflexivity|].
  split; [eexists _, _; split; reflexivity|].
  split; [simpl; tauto|].
  vm_compute. discriminate.
Qed.

(** C1, amended.  Constructing a Message validates nothing and returns for
    every content.  [update_content] raises [ValueError] (not a
    [ValidationError]) for every empty or whitespace-only content and
    leaves the message as it was; when it returns, the content is the new
    one and is not blank.  So a content that is not blank stays so through
    every call of [update_content]. *)
Theorem message_content_validation :
  (forall content sender mtype cid (w : World),
      exists m w', Message.create content sender mtype cid w = (Return m, w')
                   /\ Message.content m = content) /\
  (forall (s : list N) (m : Message.Message) (w : World),
      blank s ->
      let r := Message.update_content s (m, w) in
      fails_with (fst r) ValueError /\ ~ fails_with (fst r) ValidationError /\
      snd r = (m, w)) /\
  (forall (s : list N) (m m' : Message.Message) (w w' : World),
      Message.update_content s (m, w) = (Return tt, (m', w')) ->
      Message.content m' = s /\ ~ blank (Message.content m')) /\
  (forall (s : list N) (m : Message.Message) (w : World),
      ~ blank (Message.content m) ->
      ~ blank (Message.content (fst (snd (Message.update_content s (m, w)))))).
Proof.
  split; [|split; [|split]].
  - intros. unfold Message.create.
    destruct (message_init_returns content sender mtype cid None None None w)
      as (m & w' & E & Hc & _).
    by exists m, w'.
  - intros s m w Hs r. subst r. rewrite (update_content_rejects s m w Hs).
    simpl. split; [by vm_compute|]. split; [by vm_compute|done].
  - intros s m m' w w' E.
    destruct (blank_dec s) as [Hs|Hs].
    + by rewrite (update_content_rejects s m w Hs) in E.
    + rewrite (update_content_accepts s m w Hs) in E.
      injection E as <- <-. by simpl.
  - intros s m w Hm.
    destruct (blank_dec s) as [Hs|Hs].
    + by rewrite (update_content_rejects s m w Hs).
    + by rewrite (update_content_accepts s m w Hs).
Qed.

(** A whitespace-only update is rejected and a valid one keeps the content
    non-blank, on a sample message. *)
Lemma message_content_validation_witness :
  blank (py " ") /\
  (let r := Message.update_content (py " ")
              (sample_message 7%N 10 "hello", ticking_world) in
   fails_with (fst r) ValueError /\ ~ fails_with (fst r) ValidationError /\
   snd r = (sample_message 7%N 10 "hello", ticking_world)) /\
  ~ blank (Message.content
             (fst (snd (Message.update_content (py "bye")
                          (sample_message 7%N 10 "hello", ticking_world))))).
Proof.
  assert (Hb : blank (py " ")) by (right; unfold whitespace_only; by repeat constructor).
  split; [exact Hb|]. split.
  - exact (proj1 (proj2 message_content_validation) (py " ")
             (sample_message 7%N 10 "hello") ticking_world Hb).
  - apply (proj2 (proj2 (proj2 message_content_validation))).
    apply guard_false_iff. reflexivity.
Defined.

(** C8.  For valid new content, [update_content] returns, sets [content] to
    the new content and changes no other field (nor the world: it reads no
    clock); for empty or whitespace-only content it fails and every field
    is as before. *)
Theorem update_content_frame (s : list N) (m : Message.Message) (w : World) :
  (~ blank s ->
   exists m',
     Message.update_content s (m, w) = (Return tt, (m', w)) /\
     Message.content m' = s /\
     Message.timestamp m' = Message.timestamp m /\
     Message.id m' = Message.id m /\
     Message.sender_id m' = Message.sender_id m /\
     Message.message_type m' = Message.message_type m /\
     Message.conversation_id m' = Message.conversation_id m /\
     Message.metadata m' = Message.metadata m) /\
  (blank s ->
   fails (fst (Message.update_content s (m, w))) /\
   snd (Message.update_content s (m, w)) = (m, w)).
Proof.
  split; intros Hs.
  - exists (Message.set_content s m). rewrite (update_content_accepts s m w Hs).
    by repeat split.
  - rewrite (update_content_rejects s m w Hs). split; [by vm_compute|done].
Qed.

(** A valid and a whitespace-only update of a sample message. *)
Lemma update_content_frame_witness :
  (~ blank (py "bye") /\
   exists m',
     Message.update_content (py "bye")
       (sample_message 7%N 10 "hello", ticking_world) = (Return tt, (m', ticking_world)) /\
     Message.content m' = py "bye" /\ Message.timestamp m' = 10) /\
  (blank (py "  ") /\
   snd (Message.update_content (py "  ")
          (sample_message 7%N 10 "hello", ticking_world))
   = (sample_message 7%N 10 "hello", ticking_world)).
Proof.
  assert (Hn : ~ blank (py "bye")) by (apply guard_false_iff; reflexivity).
  assert (Hb : blank (py "  ")) by (apply guard_true_iff; reflexivity).
  pose proof (update_content_frame (py "bye") (sample_message 7%N 10 "hello")
                ticking_world) as [Hok _].
  pose proof (update_content_frame (py "  ") (sample_message 7%N 10 "hello")
                ticking_world) as [_ Hko].
  split.
  - split; [exact Hn|]. destruct (Hok Hn) as (m' & E & Hc & Ht & _).
    exists m'. simpl in Ht. by repeat split.
  - split; [exact Hb|]. exact (proj2 (Hko Hb)).
Defined.

(** ** Conversation: what each method computes *)

Lemma touch_eval (c : Conversation.Conversation) (w : World) :
  Conversation.touch (c, w)
  = (Return tt, (Conversation.set_updated_at (now w) c, ticked w)).
Proof. reflexivity. Qed.

Lemma add_message_eval (m : Message.Message) (c : Conversation.Conversation)
    (w : World) :
  Conversation.add_message m (c, w)
  = (Return tt,
     (Conversation.set_updated_at (now w)
        (Conversation.set_messages (Conversation.messages c ++ [m]) c),
      ticked w)).
Proof. reflexivity. Qed.

Lemma update_title_rejects (t : list N) (c : Conversation.Conversation)
    (w : World) :
  blank t ->
  Conversation.update_title t (c, w)
  = (Raise (mkExc ValueError "Conversation title cannot be empty"), (c, w)).
Proof.
  intros H. apply guard_true_iff in H.
  unfold Conversation.update_title. by rewrite H.
Qed.

Lemma update_title_accepts (t : list N) (c : Conversation.Conversation)
    (w : World) :
  ~ blank t ->
  Conversation.update_title t (c, w)
  = (Return tt,
     (Conversation.set_updated_at (now w) (Conversation.set_title t c),
      ticked w)).
Proof.
  intros H. apply guard_false_iff in H.
  unfold Conversation.update_title. by rewrite H.
Qed.

Lemma archive_eval (c : Conversation.Conversation) (w : World) :
  Conversation.archive (c, w)
  = (Return tt,
     (Conversation.set_updated_at (now w) (Conversation.set_is_archived true c),
      ticked w)).
Proof. reflexivity. Qed.

Lemma unarchive_eval (c : Conversation.Conversation) (w : World) :
  Conversation.unarchive (c, w)
  = (Return tt,
     (Conversation.set_updated_at (now w) (Conversation.set_is_archived false c),
      ticked w)).
Proof. reflexivity. Qed.

Lemma get_latest_messages_eval (k : Z) (c : Conversation.Conversation)
    (w : World) :
  Conversation.get_latest_messages k (c, w)
  = (Return (slice_to (sorted Message.timestamp true (Conversation.messages c)) k),
     (c, w)).
Proof. reflexivity. Qed.

Lemma conversation_init_eval title created_by (w : World) :
  Conversation.create title created_by w
  = (Return (Conversation.mk title created_by (uuid4_draws w (uuid_reads w))
               (now w) (now (ticked w)) false []),
     mkWorld (utcnow_readings w) (uuid4_draws w) (S (S (clock_reads w)))
       (S (uuid_reads w))).
Proof. reflexivity. Qed.

Lemma ticking_world_monotone : clock_monotone ticking_world.
Proof. intros i j Hij. simpl. lia. Qed.

Lemma clock_monotone_ticked (w : World) :
  clock_monotone w -> clock_monotone (ticked w).
Proof. intros H i j Hij. by apply H. Qed.

Lemma now_le_now_ticked (w : World) : clock_monotone w -> now w <= now (ticked w).
Proof. intros H. apply H. simpl. lia. Qed.

(** ** Conversation: the messages of a conversation carry its id *)

Lemma run_op_keeps_id (op : Op) (c : Conversation.Conversation) (w : World) :
  Conversation.id (fst (snd (run_op op (c, w)))) = Conversation.id c.
Proof.
  destruct op as [m|t| | |k]; try reflexivity.
  simpl. destruct (blank_dec t) as [Ht|Ht].
  - by rewrite update_title_rejects.
  - by rewrite update_title_accepts.
Qed.

Lemma run_op_keeps_messages_belong (op : Op) (c : Conversation.Conversation)
    (w : World) :
  messages_belong c -> own_message c op ->
  messages_belong (fst (snd (run_op op (c, w)))).
Proof.
  intros Hc Hop. destruct op as [m|t| | |k]; try exact Hc.
  - unfold messages_belong in *. simpl in *.
    apply Forall_app. split; [exact Hc|]. by constructor.
  - simpl. destruct (blank_dec t) as [Ht|Ht].
    + by rewrite update_title_rejects.
    + by rewrite update_title_accepts.
Qed.

Lemma call_each_cons {St A : Type} (f : A -> Py St unit) (a : A)
    (args : list A) (st : St) :
  call_each f (a :: args) st
  = match f a st with
    | (Return _, st') => call_each f args st'
    | (Raise e, st') => (Raise e, st')
    end.
Proof. reflexivity. Qed.

(** C2, as stated, fails: [add_message] appends whatever it is given.  A
    message naming conversation 8 is added to conversation 7, whose
    messages all carried its id (it had none). *)
Lemma add_message_accepts_foreign_message :
  messages_belong sample_conversation /\
  Conversation.id sample_conversation = 7%N /\
  Message.conversation_id (sample_message 8%N 20 "hi") = 8%N /\
  exists c' w',
    Conversation.add_message (sample_message 8%N 20 "hi")
      (sample_conversation, ticking_world) = (Return tt, (c', w')) /\
    Conversation.messages c' = [sample_message 8%N 20 "hi"] /\
    ~ messages_belong c'.
Proof.
  split; [constructor|]. split; [reflexivity|]. split; [reflexivity|].
  eexists _, _. split; [reflexivity|]. split; [reflexivity|].
  unfold messages_belong. simpl. inversion 1 as [|? ? Hhd _]. discriminate Hhd.
Qed.

(** C2, amended.  A conversation created with its defaults has no message,
    so all of its messages carry its id; and every sequence of operations
    keeps it so and keeps the id, provided each message handed to
    [add_message] names this conversation.  [add_message] itself checks
    nothing: the match of ids is the caller's obligation. *)
Theorem messages_belong_invariant :
  (forall title created_by (w : World),
      exists c w', Conversation.create title created_by w = (Return c, w') /\
                   messages_belong c) /\
  (forall (ops : list Op) (c : Conversation.Conversation) (w : World),
      messages_belong c -> Forall (own_message c) ops ->
      messages_belong (fst (snd (call_each run_op ops (c, w)))) /\
      Conversation.id (fst (snd (call_each run_op ops (c, w)))) = Conversation.id c).
Proof.
  split.
  - intros. rewrite conversation_init_eval. eexists _, _. split; [reflexivity|].
    constructor.
  - induction ops as [|op ops IH]; intros c w Hc Hops; [done|].
    inversion Hops as [|? ? Hop Hops']; subst.
    pose proof (run_op_keeps_messages_belong op c w Hc Hop) as Hc1.
    pose proof (run_op_keeps_id op c w) as Hid.
    rewrite call_each_cons.
    destruct (run_op op (c, w)) as [[[]|e] [c1 w1]]; simpl in *.
    + rewrite <- Hid. apply IH; [exact Hc1|].
      eapply Forall_impl; [exact Hops'|].
      intros [] Ho; simpl in *; congruence.
    + by split.
Qed.

(** Four operations on a sample conversation, one of them failing, with
    messages that name it. *)
Lemma messages_belong_invariant_witness :
  messages_belong
    (fst (snd (call_each run_op
                 [AddMessage (sample_message 7%N 20 "hi"); Archive;
                  UpdateTitle []; AddMessage (sample_message 7%N 21 "there")]
                 (sample_conversation, ticking_world)))).
Proof.
  apply (proj2 messages_belong_invariant).
  - constructor.
  - repeat constructor.
Defined.

(** ** Conversation: [update_title] *)

(** C3, as stated, fails: [update_title] rejects the empty title and the
    whitespace-only title with the builtin [ValueError], which is neither a
    [ValidationError] nor any [DomainException]. *)
Lemma update_title_raises_ValueError :
  blank [] /\ blank (py "   ") /\
  Conversation.update_title [] (sample_conversation, ticking_world)
  = (Raise (mkExc ValueError "Conversation title cannot be empty"),
     (sample_conversation, ticking_world)) /\
  ~ fails_with
      (fst (Conversation.update_title [] (sample_conversation, ticking_world)))
      ValidationError /\
  ~ fails_with
      (fst (Conversation.update_title (py "   ") (sample_conversation, ticking_world)))
      ValidationError.
Proof.
  split; [by left|]. split; [apply guard_true_iff; reflexivity|].
  split; [reflexivity|]. split; vm_compute; discriminate.
Qed.

(** C3, amended.  [update_title(t)] fails if and only if [t] is empty or
    whitespace-only, and then with [ValueError] (never with
    [ValidationError]); on failure the title, every other field and the
    clock are as before; on success the title is [t], [updated_at] is the
    clock's reading, and the other fields are as before. *)
Theorem update_title_spec (t : list N) (c : Conversation.Conversation)
    (w : World) :
  (blank t <-> fails (fst (Conversation.update_title t (c, w)))) /\
  (blank t <-> fails_with (fst (Conversation.update_title t (c, w))) ValueError) /\
  ~ fails_with (fst (Conversation.update_title t (c, w))) ValidationError /\
  (fails (fst (Conversation.update_title t (c, w))) ->
   snd (Conversation.update_title t (c, w)) = (c, w)) /\
  (succeeds (fst (Conversation.update_title t (c, w))) ->
   exists c',
     Conversation.update_title t (c, w) = (Return tt, (c', ticked w)) /\
     Conversation.title c' = t /\
     Conversation.updated_at c' = now w /\
     Conversation.created_by c' = Conversation.created_by c /\
     Conversation.id c' = Conversation.id c /\
     Conversation.created_at c' = Conversation.created_at c /\
     Conversation.is_archived c' = Conversation.is_archived c /\
     Conversation.messages c' = Conversation.messages c).
Proof.
  destruct (blank_dec t) as [Ht|Ht].
  - rewrite (update_title_rejects t c w Ht). simpl.
    split; [split; [by vm_compute | done]|].
    split; [split; [by vm_compute | done]|].
    split; [by vm_compute|]. split; [done|]. intros [].
  - rewrite (update_title_accepts t c w Ht). simpl.
    split; [tauto|]. split; [tauto|]. split; [tauto|]. split; [intros []|].
    intros _. eexists. split; [reflexivity|]. by repeat split.
Qed.

(** A whitespace-only and a valid title on a sample conversation. *)
Lemma update_title_spec_witness :
  (fails (fst (Conversation.update_title (py "   ")
                 (sample_conversation, ticking_world))) /\
   snd (Conversation.update_title (py "   ") (sample_conversation, ticking_world))
   = (sample_conversation, ticking_world)) /\
  (succeeds (fst (Conversation.update_title (py "Rome")
                    (sample_conversation, ticking_world))) /\
   exists c',
     Conversation.update_title (py "Rome") (sample_conversation, ticking_world)
     = (Return tt, (c', ticked ticking_world)) /\
     Conversation.title c' = py "Rome" /\
     Conversation.updated_at c' = 1700000000000000).
Proof.
  pose proof (update_title_spec (py "   ") sample_conversation ticking_world)
    as (_ & _ & _ & Hko & _).
  pose proof (update_title_spec (py "Rome") sample_conversation ticking_world)
    as (_ & _ & _ & _ & Hok).
  assert (Hf : fails (fst (Conversation.update_title (py "   ")
                             (sample_conversation, ticking_world))))
    by (by vm_compute).
  assert (Hs : succeeds (fst (Conversation.update_title (py "Rome")
                                (sample_conversation, ticking_world))))
    by exact I.
  split.
  - split; [exact Hf | exact (Hko Hf)].
  - split; [exact Hs|]. destruct (Hok Hs) as (c' & E & Ht & Hu & _).
    exists c'. by repeat split.
Defined.

(** ** Conversation: construction *)

(** C4, as stated, fails: the two timestamps come from two calls of
    [datetime.utcnow()], one per [default_factory].  On a clock that
    advances between the two calls they differ. *)
Lemma conversation_create_two_clock_reads :
  ~ blank (py "Trip planning") /\ clock_monotone ticking_world /\
  exists c w',
    Conversation.create (py "Trip planning") 1%N ticking_world = (Return c, w') /\
    Conversation.created_at c = 1700000000000000 /\
    Conversation.updated_at c = 1700000000000001 /\
    Conversation.created_at c <> Conversation.updated_at c.
Proof.
  split; [apply guard_false_iff; reflexivity|].
  split; [exact ticking_world_monotone|].
  eexists _, _. split; [reflexivity|]. by repeat split.
Qed.

(** C4, amended.  Creating a Conversation from a title and a creator id
    returns, for every title, an entity with that title and creator,
    [is_archived] false and no messages; [created_at] and [updated_at] are
    two successive readings of the clock, [created_at] the first, so they
    are equal exactly when the two readings coincide, and
    [created_at <= updated_at] on a clock that does not run backwards. *)
Theorem conversation_create_spec (title : list N) (created_by : N) (w : World) :
  exists c w',
    Conversation.create title created_by w = (Return c, w') /\
    Conversation.title c = title /\
    Conversation.created_by c = created_by /\
    Conversation.is_archived c = false /\
    Conversation.messages c = [] /\
    Conversation.created_at c = utcnow_readings w (clock_reads w) /\
    Conversation.updated_at c = utcnow_readings w (S (clock_reads w)) /\
    (Conversation.created_at c = Conversation.updated_at c <->
     utcnow_readings w (clock_reads w) = utcnow_readings w (S (clock_reads w))) /\
    (clock_monotone w -> Conversation.created_at c <= Conversation.updated_at c).
Proof.
  rewrite conversation_init_eval. eexists _, _. split; [reflexivity|]. simpl.
  repeat split; try done.
  intros H. apply H. lia.
Qed.

(** Creation on the ticking clock. *)
Lemma conversation_create_spec_witness :
  clock_monotone ticking_world /\
  exists c w',
    Conversation.create (py "Trip planning") 1%N ticking_world = (Return c, w') /\
    Conversation.is_archived c = false /\
    Conversation.messages c = [] /\
    Conversation.created_at c <= Conversation.updated_at c.
Proof.
  split; [exact ticking_world_monotone|].
  destruct (conversation_create_spec (py "Trip planning") 1%N ticking_world)
    as (c & w' & E & _ & _ & Ha & Hm & _ & _ & _ & Hle).
  exists c, w'. split; [exact E|]. split; [exact Ha|]. split; [exact Hm|].
  exact (Hle ticking_world_monotone).
Defined.

(** ** Conversation: [archive] and [unarchive] *)

Lemma archive_keeps_rest (c : Conversation.Conversation) (w : World) (b : bool) :
  let c' := Conversation.set_updated_at (now w) (Conversation.set_is_archived b c) in
  Conversation.title c' = Conversation.title c /\
  Conversation.created_by c' = Conversation.created_by c /\
  Conversation.id c' = Conversation.id c /\
  Conversation.created_at c' = Conversation.created_at c /\
  Conversation.messages c' = Conversation.messages c.
Proof. by repeat split. Qed.

(** C7, as stated, fails: each call stores the reading of the clock it
    takes, whatever [updated_at] was.  On a clock set back between the two
    calls, [archive()] leaves [updated_at] at 5 and the [unarchive()] that
    follows leaves it at 3. *)
Lemma archive_unarchive_on_backwards_clock :
  exists a au : Conversation.Conversation,
    Conversation.archive
      (Conversation.mk (py "Trip planning") 1%N 7%N 0 0 false [], backwards_world)
    = (Return tt, (a, ticked backwards_world)) /\
    Conversation.unarchive (a, ticked backwards_world)
    = (Return tt, (au, ticked (ticked backwards_world))) /\
    Conversation.is_archived au = false /\
    Conversation.updated_at a = 5 /\
    Conversation.updated_at au = 3 /\
    ~ (Conversation.updated_at a <= Conversation.updated_at au).
Proof.
  eexists _, _. split; [reflexivity|]. split; [reflexivity|].
  split; [reflexivity|]. split; [reflexivity|]. split; [reflexivity|].
  simpl. lia.
Qed.

(** C7, amended.  [archive()] returns with [is_archived] true and
    [unarchive()] with [is_archived] false, whatever the flag was; each
    sets [updated_at] to the reading of the clock it takes, so a second
    [archive()] leaves the flag true and moves [updated_at] to the next
    reading; [archive()] then [unarchive()] leaves the flag false.  When
    the successive readings of the clock do not decrease, [updated_at]
    after the second call is at least what it was after the first. *)
Theorem archive_unarchive_touch (c : Conversation.Conversation) (w : World) :
  exists a u aa au : Conversation.Conversation,
    Conversation.archive (c, w) = (Return tt, (a, ticked w)) /\
    Conversation.unarchive (c, w) = (Return tt, (u, ticked w)) /\
    Conversation.archive (a, ticked w) = (Return tt, (aa, ticked (ticked w))) /\
    Conversation.unarchive (a, ticked w) = (Return tt, (au, ticked (ticked w))) /\
    Conversation.is_archived a = true /\
    Conversation.is_archived u = false /\
    Conversation.updated_at a = utcnow_readings w (clock_reads w) /\
    Conversation.updated_at u = utcnow_readings w (clock_reads w) /\
    Conversation.is_archived aa = true /\
    Conversation.updated_at aa = utcnow_readings w (S (clock_reads w)) /\
    Conversation.is_archived au = false /\
    Conversation.updated_at au = utcnow_readings w (S (clock_reads w)) /\
    (clock_monotone w ->
     Conversation.updated_at a <= Conversation.updated_at aa /\
     Conversation.updated_at a <= Conversation.updated_at au).
Proof.
  eexists _, _, _, _.
  split; [apply archive_eval|]. split; [apply unarchive_eval|].
  split; [apply archive_eval|]. split; [apply unarchive_eval|].
  simpl. do 8 (split; [reflexivity|]).
  intros Hw. split; apply Hw; lia.
Qed.

(** Archive, then unarchive, at the ticking clock. *)
Lemma archive_unarchive_touch_witness :
  clock_monotone ticking_world /\
  exists a au : Conversation.Conversation,
    Conversation.archive (sample_conversation, ticking_world)
    = (Return tt, (a, ticked ticking_world)) /\
    Conversation.unarchive (a, ticked ticking_world)
    = (Return tt, (au, ticked (ticked ticking_world))) /\
    Conversation.is_archived au = false /\
    Conversation.updated_at a <= Conversation.updated_at au.
Proof.
  split; [exact ticking_world_monotone|].
  destruct (archive_unarchive_touch sample_conversation ticking_world)
    as (a & u & aa & au & Ea & _ & _ & Eau & _ & _ & _ & _ & _ & _ & Hf & _ & Hle).
  exists a, au. split; [exact Ea|]. split; [exact Eau|]. split; [exact Hf|].
  exact (proj2 (Hle ticking_world_monotone)).
Defined.

(** ** Conversation: [add_message] *)

Lemma states_after_add_message_cons (m : Message.Message)
    (ms : list Message.Message) (c : Conversation.Conversation) (w : World) :
  states_after Conversation.add_message (m :: ms) (c, w)
  = (Conversation.set_updated_at (now w)
       (Conversation.set_messages (Conversation.messages c ++ [m]) c), ticked w)
    :: states_after Conversation.add_message ms
         (Conversation.set_updated_at (now w)
            (Conversation.set_messages (Conversation.messages c ++ [m]) c),
          ticked w).
Proof. reflexivity. Qed.

Lemma states_after_add_message (ms : list Message.Message) :
  forall (c : Conversation.Conversation) (w : World),
    (exists c' w',
        call_each Conversation.add_message ms (c, w) = (Return tt, (c', w')) /\
        Conversation.messages c' = Conversation.messages c ++ ms /\
        last ((c, w) :: states_after Conversation.add_message ms (c, w))
        = Some (c', w')) /\
    length (states_after Conversation.add_message ms (c, w)) = length ms /\
    (forall (i : nat) st,
        states_after Conversation.add_message ms (c, w) !! i = Some st ->
        Conversation.messages (fst st) = Conversation.messages c ++ take (S i) ms /\
        Conversation.updated_at (fst st)
        = utcnow_readings w (clock_reads w + i)%nat).
Proof.
  induction ms as [|m ms IH]; intros c w.
  - split; [|split; [reflexivity|]].
    + exists c, w. rewrite app_nil_r. by repeat split.
    + intros i st E. by destruct i.
  - rewrite call_each_cons, states_after_add_message_cons, add_message_eval.
    set (c1 := Conversation.set_updated_at _ _).
    destruct (IH c1 (ticked w)) as ((c' & w' & E & Hm & Hl) & Hlen & Hi).
    split; [|split].
    + exists c', w'. split; [exact E|]. split.
      * rewrite Hm. subst c1. simpl. by rewrite <- app_assoc.
      * exact Hl.
    + simpl. f_equal. exact Hlen.
    + intros [|i] st Hst.
      * injection Hst as <-. subst c1. simpl. split; [reflexivity|].
        unfold now. f_equal. lia.
      * simpl in Hst. destruct (Hi i st Hst) as [H1 H2]. split.
        -- rewrite H1. subst c1. simpl. by rewrite <- app_assoc.
        -- rewrite H2. simpl. f_equal. lia.
Qed.

Lemma states_after_add_message_sorted (ms : list Message.Message) :
  forall (c : Conversation.Conversation) (w : World),
    clock_monotone w ->
    StronglySorted Z.le
      (map (fun st => Conversation.updated_at (fst st))
           (states_after Conversation.add_message ms (c, w))) /\
    Forall (fun st => now w <= Conversation.updated_at (fst st))
           (states_after Conversation.add_message ms (c, w)).
Proof.
  induction ms as [|m ms IH]; intros c w Hw.
  - split; constructor.
  - rewrite states_after_add_message_cons.
    set (c1 := Conversation.set_updated_at _ _).
    destruct (IH c1 (ticked w) (clock_monotone_ticked w Hw)) as [Hs Hf].
    assert (Hf' : Forall (fun st => now w <= Conversation.updated_at (fst st))
                    (states_after Conversation.add_message ms (c1, ticked w))).
    { eapply Forall_impl; [exact Hf|]. intros st Hst. cbv beta in Hst.
      pose proof (now_le_now_ticked w Hw). lia. }
    split.
    + simpl map. constructor; [exact Hs|].
      apply Forall_fmap. exact Hf'.
    + constructor; [subst c1; simpl; lia | exact Hf'].
Qed.

(** C5, as stated, fails in what it says of [updated_at]: each call stores
    the reading of the clock it takes and compares it with nothing.  On a
    clock set back between two calls [updated_at] is 5 after the first
    [add_message] and 3 after the second; and on a clock that never runs
    backwards, a conversation whose [updated_at] is ahead of the clock has
    it lowered by the first call. *)
Lemma add_message_on_backwards_clock :
  (exists c1 c2 : Conversation.Conversation,
      Conversation.add_message (sample_message 7%N 20 "first")
        (Conversation.mk (py "Trip planning") 1%N 7%N 0 0 false [], backwards_world)
      = (Return tt, (c1, ticked backwards_world)) /\
      Conversation.add_message (sample_message 7%N 21 "second")
        (c1, ticked backwards_world)
      = (Return tt, (c2, ticked (ticked backwards_world))) /\
      Conversation.updated_at c1 = 5 /\
      Conversation.updated_at c2 = 3 /\
      ~ (Conversation.updated_at c1 <= Conversation.updated_at c2)) /\
  (clock_monotone ticking_world /\
   exists c1 : Conversation.Conversation,
     Conversation.add_message (sample_message 7%N 20 "first")
       (Conversation.mk (py "Trip planning") 1%N 7%N 10 1800000000000000 false [],
        ticking_world)
     = (Return tt, (c1, ticked ticking_world)) /\
     Conversation.updated_at c1 = 1700000000000000 /\
     ~ (1800000000000000 <= Conversation.updated_at c1)).
Proof.
  split.
  - eexists _, _. split; [reflexivity|]. split; [reflexivity|].
    split; [reflexivity|]. split; [reflexivity|]. simpl. lia.
  - split; [exact ticking_world_monotone|].
    eexists. split; [reflexivity|]. split; [reflexivity|]. simpl. lia.
Qed.

(** C5, amended.  [add_message] is append-only, on any clock: a sequence of
    N calls all return; the messages are then the earlier ones followed by
    the N added, in call order (exactly the N added when there was none),
    and after the i-th call they are the earlier ones followed by the
    first i added.  Each call sets [updated_at] to the reading of the
    clock it takes.  When the successive readings of the clock do not
    decrease, [updated_at] never decreases from one call to a later one;
    and when, besides, [updated_at] was not ahead of the clock before the
    first call, it is never below what it was then. *)
Theorem add_message_append_only (ms : list Message.Message)
    (c : Conversation.Conversation) (w : World) :
  (exists c' w',
      call_each Conversation.add_message ms (c, w) = (Return tt, (c', w')) /\
      Conversation.messages c' = Conversation.messages c ++ ms /\
      (Conversation.messages c = [] ->
       Conversation.messages c' = ms /\
       length (Conversation.messages c') = length ms)) /\
  length (states_after Conversation.add_message ms (c, w)) = length ms /\
  (forall (i : nat) st,
      states_after Conversation.add_message ms (c, w) !! i = Some st ->
      Conversation.messages (fst st) = Conversation.messages c ++ take (S i) ms /\
      Conversation.updated_at (fst st) = utcnow_readings w (clock_reads w + i)%nat) /\
  (clock_monotone w ->
   (forall (i j : nat) sti stj,
       (i <= j)%nat ->
       states_after Conversation.add_message ms (c, w) !! i = Some sti ->
       states_after Conversation.add_message ms (c, w) !! j = Some stj ->
       Conversation.updated_at (fst sti) <= Conversation.updated_at (fst stj)) /\
   StronglySorted Z.le
     (map (fun st => Conversation.updated_at (fst st))
          (states_after Conversation.add_message ms (c, w))) /\
   (Conversation.updated_at c <= utcnow_readings w (clock_reads w) ->
    forall (i : nat) st,
      states_after Conversation.add_message ms (c, w) !! i = Some st ->
      Conversation.updated_at c <= Conversation.updated_at (fst st))).
Proof.
  destruct (states_after_add_message ms c w) as ((c' & w' & E & Hm & _) & Hlen & Hi).
  split; [|split; [exact Hlen|split; [exact Hi|]]].
  - exists c', w'. split; [exact E|]. split; [exact Hm|].
    intros Hnil. rewrite Hm, Hnil. by split.
  - intros Hw. split; [|split].
    + intros i j sti stj Hij Ei Ej.
      destruct (Hi i sti Ei) as [_ ->]. destruct (Hi j stj Ej) as [_ ->].
      apply Hw. lia.
    + apply (states_after_add_message_sorted ms c w Hw).
    + intros Hc i st Ei. destruct (Hi i st Ei) as [_ ->].
      etransitivity; [exact Hc|]. apply Hw. lia.
Qed.

(** Two messages added at the ticking clock. *)
Lemma add_message_append_only_witness :
  clock_monotone ticking_world /\
  Conversation.updated_at sample_conversation
  <= utcnow_readings ticking_world (clock_reads ticking_world) /\
  (exists c' w',
      call_each Conversation.add_message
        [sample_message 7%N 20 "Where should we go?"; sample_message 7%N 21 "Rome"]
        (sample_conversation, ticking_world) = (Return tt, (c', w')) /\
      Conversation.messages c'
      = [sample_message 7%N 20 "Where should we go?"; sample_message 7%N 21 "Rome"]) /\
  StronglySorted Z.le
    (map (fun st => Conversation.updated_at (fst st))
         (states_after Conversation.add_message
            [sample_message 7%N 20 "Where should we go?"; sample_message 7%N 21 "Rome"]
            (sample_conversation, ticking_world))).
Proof.
  split; [exact ticking_world_monotone|].
  split; [vm_compute; discriminate|].
  destruct (add_message_append_only
              [sample_message 7%N 20 "Where should we go?"; sample_message 7%N 21 "Rome"]
              sample_conversation ticking_world)
    as ((c' & w' & E & Hm & _) & _ & _ & Hmono).
  split.
  - exists c', w'. split; [exact E | exact Hm].
  - exact (proj1 (proj2 (Hmono ticking_world_monotone))).
Defined.

(** ** Sorting *)

Section SortedFacts.
Context {A : Type} (key : A -> Z).

Local Abbreviation ascending := (StronglySorted (fun a b => key a <= key b)).
Local Abbreviation descending := (StronglySorted (fun a b => key b <= key a)).
Local Abbreviation keyed t := (filter (fun a => key a = t)).

Lemma insert_by_perm (x : A) (l : list A) : insert_by key x l ≡ₚ x :: l.
Proof.
  induction l as [|y l IH]; simpl; [done|].
  destruct (key y <? key x); [|done].
  rewrite IH. apply Permutation_swap.
Qed.

Lemma stable_sort_perm (l : list A) : stable_sort key l ≡ₚ l.
Proof.
  induction l as [|x l IH]; simpl; [done|].
  by rewrite insert_by_perm, IH.
Qed.

Lemma insert_by_ascending (x : A) (l : list A) :
  ascending l -> ascending (insert_by key x l).
Proof.
  induction l as [|y l IH]; intros Hl; simpl.
  - repeat constructor.
  - apply StronglySorted_cons in Hl as [Hy Hl].
    destruct (key y <? key x) eqn:E.
    + apply Z.ltb_lt in E. apply StronglySorted_cons. split; [|by apply IH].
      rewrite insert_by_perm. constructor; [lia | exact Hy].
    + apply Z.ltb_ge in E. apply StronglySorted_cons. split.
      * constructor; [exact E|].
        eapply Forall_impl; [exact Hy|]. intros z Hz. simpl in Hz. lia.
      * apply StronglySorted_cons. by split.
Qed.

Lemma stable_sort_ascending (l : list A) : ascending (stable_sort key l).
Proof.
  induction l as [|x l IH]; simpl; [constructor|].
  by apply insert_by_ascending.
Qed.

(** Insertion steps over smaller keys only, so it never changes the order
    of two elements with the same key. *)
Lemma insert_by_keyed (t : Z) (x : A) (l : list A) :
  keyed t (insert_by key x l) = keyed t (x :: l).
Proof.
  induction l as [|y l IH]; simpl; [done|].
  destruct (key y <? key x) eqn:E; [|done].
  apply Z.ltb_lt in E.
  rewrite (filter_cons _ y), IH, !filter_cons.
  repeat case_decide; try done; lia.
Qed.

Lemma stable_sort_keyed (t : Z) (l : list A) :
  keyed t (stable_sort key l) = keyed t l.
Proof.
  induction l as [|x l IH]; simpl; [done|].
  by rewrite insert_by_keyed, !filter_cons, IH.
Qed.

Lemma descending_reverse (l : list A) : ascending l -> descending (reverse l).
Proof.
  induction 1 as [|x l Hl IH Hx]; [constructor|].
  rewrite reverse_cons. apply StronglySorted_app. split; [|split].
  - intros a b Ha Hb. apply list_elem_of_singleton in Hb as ->.
    rewrite elem_of_reverse in Ha.
    rewrite Forall_forall in Hx. by apply Hx.
  - exact IH.
  - repeat constructor.
Qed.

(** [sorted(l, key=key, reverse=True)]: a rearrangement of [l], largest key
    first, in which equal keys keep the order they have in [l]. *)
Lemma sorted_reverse_perm (l : list A) : sorted key true l ≡ₚ l.
Proof.
  unfold sorted. by rewrite reverse_Permutation, stable_sort_perm, reverse_Permutation.
Qed.

Lemma sorted_reverse_descending (l : list A) : descending (sorted key true l).
Proof. apply descending_reverse, stable_sort_ascending. Qed.

Lemma sorted_reverse_keyed (t : Z) (l : list A) :
  keyed t (sorted key true l) = keyed t l.
Proof.
  unfold sorted.
  by rewrite filter_reverse, stable_sort_keyed, filter_reverse, reverse_involutive.
Qed.

Lemma sorted_perm (l : list A) : sorted key false l ≡ₚ l.
Proof. apply stable_sort_perm. Qed.

(** A list has one stable rearrangement in ascending order of key: two
    ascending lists that agree, key by key, on the elements of that key and
    their order, are equal.  Whatever stable sort computes it, the result
    is the one [stable_sort] computes. *)
Lemma stable_sorted_unique (l1 l2 : list A) :
  ascending l1 -> ascending l2 ->
  (forall t, keyed t l1 = keyed t l2) ->
  l1 = l2.
Proof.
  revert l2. induction l1 as [|a l1 IH]; intros l2 H1 H2 Hk.
  - destruct l2 as [|b l2]; [done|].
    specialize (Hk (key b)). rewrite filter_nil, filter_cons_True in Hk; done.
  - destruct l2 as [|b l2].
    { specialize (Hk (key a)). rewrite filter_nil, filter_cons_True in Hk; done. }
    apply StronglySorted_cons in H1 as [Ha H1].
    apply StronglySorted_cons in H2 as [Hb H2].
    rewrite Forall_forall in Ha, Hb.
    assert (Hab : key a = key b).
    { assert (a ∈ b :: l2) as Hin.
      { assert (a ∈ keyed (key a) (b :: l2)) as Hin.
        { rewrite <- Hk, filter_cons_True by done. left. }
        by apply list_elem_of_filter in Hin as [_ ?]. }
      assert (b ∈ a :: l1) as Hin'.
      { assert (b ∈ keyed (key b) (a :: l1)) as Hin'.
        { rewrite Hk, filter_cons_True by done. left. }
        by apply list_elem_of_filter in Hin' as [_ ?]. }
      apply elem_of_cons in Hin as [->|Hin]; [done|].
      apply elem_of_cons in Hin' as [->|Hin']; [done|].
      specialize (Ha _ Hin'). specialize (Hb _ Hin). simpl in *. lia. }
    pose proof (Hk (key a)) as Hhd.
    rewrite filter_cons_True, filter_cons_True in Hhd by done.
    injection Hhd as <- Htl.
    f_equal. apply IH; [done|done|].
    intros t. specialize (Hk t). rewrite !filter_cons in Hk.
    case_decide; [by injection Hk|done].
Qed.

Lemma stable_sort_characterised (l l' : list A) :
  ascending l' -> (forall t, keyed t l' = keyed t l) ->
  l' = stable_sort key l.
Proof.
  intros Hs Hk. apply stable_sorted_unique; [done|apply stable_sort_ascending|].
  intros t. by rewrite stable_sort_keyed.
Qed.

End SortedFacts.

(** ** Slices *)

Lemma slice_to_take {A : Type} (l : list A) (stop : Z) :
  exists n : nat, slice_to l stop = take n l /\
                  (0 <= stop -> n = Z.to_nat (Z.min stop (Z.of_nat (length l)))).
Proof.
  unfold slice_to. destruct (stop <? 0) eqn:E.
  - eexists. split; [reflexivity|]. apply Z.ltb_lt in E. lia.
  - eexists. split; [reflexivity|]. done.
Qed.

Lemma slice_to_length {A : Type} (l : list A) (stop : Z) :
  0 <= stop ->
  Z.of_nat (length (slice_to l stop)) = Z.min stop (Z.of_nat (length l)).
Proof.
  intros H. unfold slice_to.
  assert ((stop <? 0) = false) as -> by (apply Z.ltb_ge; lia).
  rewrite length_take. lia.
Qed.

(** ** Conversation: [get_latest_messages] *)

(** A limit below zero is no count: [[:limit]] then drops the last
    [-limit] elements of the sorted list.  With two messages and limit -1
    the call returns one message, the newer. *)
Lemma get_latest_messages_negative_limit :
  exists out st,
    Conversation.get_latest_messages (-1)
      (Conversation.mk (py "Trip planning") 1%N 7%N 10 30 false
         [sample_message 7%N 20 "first"; sample_message 7%N 21 "second"],
       ticking_world)
    = (Return out, st) /\
    out = [sample_message 7%N 21 "second"] /\
    ~ (Z.of_nat (length out) <= -1).
Proof.
  eexists _, _. split; [reflexivity|]. split; [reflexivity|]. simpl. lia.
Qed.

(** C6.  For every limit [k >= 0], a count of messages,
    [get_latest_messages] returns at most [k] messages, [min k (len
    messages)] of them, newest first, each a message of the conversation
    (as often, at most, as the conversation has it), and no message left
    out is newer than one returned: the [k] most recent.  The order and
    the membership hold for every limit. *)
Theorem get_latest_messages_spec (k : Z) (c : Conversation.Conversation)
    (w : World) :
  exists out,
    Conversation.get_latest_messages k (c, w) = (Return out, (c, w)) /\
    newest_first out /\
    out ⊆+ Conversation.messages c /\
    (forall m, m ∈ out -> m ∈ Conversation.messages c) /\
    (exists rest,
        Conversation.messages c ≡ₚ out ++ rest /\
        forall a b, a ∈ out -> b ∈ rest ->
                    Message.timestamp b <= Message.timestamp a) /\
    (0 <= k ->
     Z.of_nat (length out) = Z.min k (Z.of_nat (length (Conversation.messages c))) /\
     Z.of_nat (length out) <= k).
Proof.
  rewrite get_latest_messages_eval.
  set (S := sorted Message.timestamp true (Conversation.messages c)).
  pose proof (sorted_reverse_perm Message.timestamp (Conversation.messages c)) as Hp.
  pose proof (sorted_reverse_descending Message.timestamp (Conversation.messages c)) as Hd.
  fold S in Hp, Hd.
  destruct (slice_to_take S k) as (n & En & _).
  eexists. split; [reflexivity|]. rewrite En.
  rewrite <- (take_drop n S) in Hd.
  split; [|split; [|split; [|split]]].
  - exact (StronglySorted_app_1_l _ _ _ Hd).
  - rewrite <- Hp. apply submseteq_take.
  - intros m Hm. rewrite <- Hp. eapply elem_of_submseteq; [exact Hm|].
    apply submseteq_take.
  - exists (drop n S). split; [by rewrite take_drop|].
    intros a b Ha Hb. exact (StronglySorted_app_1_elem_of _ _ _ _ _ Hd Ha Hb).
  - intros Hk. rewrite <- En.
    pose proof (slice_to_length S k Hk) as Hlen.
    assert (length S = length (Conversation.messages c)) as Hl
      by (by rewrite Hp).
    rewrite Hl in Hlen. lia.
Qed.

(** The latest one of two messages. *)
Lemma get_latest_messages_spec_witness :
  0 <= 1 /\
  exists out,
    Conversation.get_latest_messages 1
      (Conversation.mk (py "Trip planning") 1%N 7%N 10 30 false
         [sample_message 7%N 20 "first"; sample_message 7%N 21 "second"],
       ticking_world)
    = (Return out,
       (Conversation.mk (py "Trip planning") 1%N 7%N 10 30 false
          [sample_message 7%N 20 "first"; sample_message 7%N 21 "second"],
        ticking_world)) /\
    newest_first out /\
    Z.of_nat (length out) <= 1.
Proof.
  split; [lia|].
  destruct (get_latest_messages_spec 1
              (Conversation.mk (py "Trip planning") 1%N 7%N 10 30 false
                 [sample_message 7%N 20 "first"; sample_message 7%N 21 "second"])
              ticking_world)
    as (out & E & Hs & _ & _ & _ & Hk).
  exists out. split; [exact E|]. split; [exact Hs|].
  apply Hk. lia.
Defined.

Lemma keyed_before {A : Type} (P : A -> Prop) `{!forall x, Decision (P x)}
    (l pre post mid : list A) (a b : A) :
  filter P l = pre ++ a :: mid ++ b :: post ->
  exists l1 l2 l3, l = l1 ++ a :: l2 ++ b :: l3.
Proof.
  intros E.
  assert ([a; b] `sublist_of` l) as Hs.
  { transitivity (filter P l); [|apply sublist_filter].
    rewrite E. apply sublist_inserts_l. apply sublist_skip.
    apply sublist_inserts_l. apply sublist_skip. apply sublist_nil_l. }
  apply sublist_cons_l in Hs as (l1 & k & -> & Hs).
  apply sublist_cons_l in Hs as (l2 & l3 & -> & _).
  by exists l1, l2, l3.
Qed.

(** C9.  [get_latest_messages] breaks ties by insertion order: the returned
    messages of any one timestamp are the first of the conversation's
    messages of that timestamp, in the conversation's order; so of two
    returned messages with equal timestamps, the one returned first also
    comes first in the conversation.  The call leaves the state as it was,
    so calling again returns the same list. *)
Theorem get_latest_messages_stable (k : Z) (c : Conversation.Conversation)
    (w : World) :
  exists out,
    Conversation.get_latest_messages k (c, w) = (Return out, (c, w)) /\
    (forall t, stamped t out `prefix_of` stamped t (Conversation.messages c)) /\
    (forall t, stamped t out `sublist_of` Conversation.messages c) /\
    (forall l1 l2 l3 a b,
        out = l1 ++ a :: l2 ++ b :: l3 ->
        Message.timestamp a = Message.timestamp b ->
        exists m1 m2 m3, Conversation.messages c = m1 ++ a :: m2 ++ b :: m3) /\
    (a <- Conversation.get_latest_messages k ;;
     b <- Conversation.get_latest_messages k ;;
     ret (a, b))%py (c, w) = (Return (out, out), (c, w)).
Proof.
  rewrite get_latest_messages_eval.
  set (S := sorted Message.timestamp true (Conversation.messages c)).
  destruct (slice_to_take S k) as (n & En & _).
  eexists. split; [reflexivity|]. rewrite En.
  assert (Hpre : forall t, stamped t (take n S)
                           `prefix_of` stamped t (Conversation.messages c)).
  { intros t. unfold stamped.
    rewrite <- (sorted_reverse_keyed Message.timestamp t (Conversation.messages c)).
    fold S. rewrite <- (take_drop n S) at 2. rewrite filter_app.
    by eexists. }
  split; [exact Hpre|]. split; [|split].
  - intros t. transitivity (stamped t (Conversation.messages c)).
    + destruct (Hpre t) as [tl ->]. by apply sublist_inserts_r.
    + apply sublist_filter.
  - intros l1 l2 l3 a b Eout Hab.
    destruct (Hpre (Message.timestamp a)) as [tl Htl].
    rewrite Eout in Htl. unfold stamped in Htl.
    rewrite filter_app, filter_cons_True, filter_app, filter_cons_True in Htl
      by done.
    rewrite <- !app_assoc in Htl. simpl in Htl. rewrite <- !app_assoc in Htl.
    simpl in Htl.
    eapply (keyed_before _ _ _ _ _ _ _ Htl).
  - unfold bind. rewrite !get_latest_messages_eval. fold S. by rewrite En.
Qed.

(** C10.  [get_latest_messages] changes nothing: for every limit the
    conversation after the call is the conversation before it (the
    messages and their order, [updated_at], [title], [is_archived] and the
    other fields), and no clock was read. *)
Theorem get_latest_messages_pure (k : Z) (c : Conversation.Conversation)
    (w : World) :
  snd (Conversation.get_latest_messages k (c, w)) = (c, w) /\
  snd (Conversation.get_latest_messages_default (c, w)) = (c, w) /\
  Conversation.messages (fst (snd (Conversation.get_latest_messages k (c, w))))
  = Conversation.messages c /\
  Conversation.updated_at (fst (snd (Conversation.get_latest_messages k (c, w))))
  = Conversation.updated_at c /\
  Conversation.title (fst (snd (Conversation.get_latest_messages k (c, w))))
  = Conversation.title c /\
  Conversation.is_archived (fst (snd (Conversation.get_latest_messages k (c, w))))
  = Conversation.is_archived c.
Proof.
  unfold Conversation.get_latest_messages_default.
  rewrite !get_latest_messages_eval. by repeat split.
Qed.

(** ** Scenarios *)

(** Create a conversation, add one message, ask for the latest one. *)
Example scenario_trip_planning :
  (c <- Conversation.create (py "Trip planning") 1%N ;;
   m <- Message.create (py "Where should we go?") 1%N USER (Conversation.id c) ;;
   ret (c, m))%py ticking_world
  = (Return
       (Conversation.mk (py "Trip planning") 1%N 100%N
          1700000000000000 1700000000000001 false [],
        Message.mk (py "Where should we go?") 1%N USER 100%N 101%N
          1700000000000002 ∅),
     mkWorld (utcnow_readings ticking_world) (uuid4_draws ticking_world) 3 2) /\
  fst ((Conversation.add_message
          (Message.mk (py "Where should we go?") 1%N USER 100%N 101%N
             1700000000000002 ∅) ;;;
        Conversation.get_latest_messages 1)%py
         (Conversation.mk (py "Trip planning") 1%N 100%N
            1700000000000000 1700000000000001 false [],
          mkWorld (utcnow_readings ticking_world) (uuid4_draws ticking_world) 3 2))
  = Return [Message.mk (py "Where should we go?") 1%N USER 100%N 101%N
              1700000000000002 ∅].
Proof. split; reflexivity. Qed.

(** Three messages, the first and the last with the same timestamp: the
    newest comes first, and the two equal ones keep their order. *)
Example sorted_keeps_order_of_ties :
  sorted Message.timestamp true
    [sample_message 7%N 20 "a"; sample_message 7%N 21 "b"; sample_message 7%N 20 "c"]
  = [sample_message 7%N 21 "b"; sample_message 7%N 20 "a"; sample_message 7%N 20 "c"].
Proof. reflexivity. Qed.

Example strip_examples :
  strip (py "  hi there ") = py "hi there" /\ strip (py "   ") = [] /\
  strip [0x3000; 0x41; 0x2028]%N = [0x41]%N.
Proof. by vm_compute. Qed.

Example slice_to_examples :
  slice_to [1; 2; 3] 2 = [1; 2] /\ slice_to [1; 2; 3] 5 = [1; 2; 3] /\
  slice_to [1; 2; 3] 0 = [] /\ slice_to [1; 2; 3] (-1) = [1; 2] /\
  slice_to [1; 2; 3] (-5) = [].
Proof. by vm_compute. Qed.

Example issubclass_examples :
  issubclass ValidationError DomainException = true /\
  issubclass ValidationError ValueError = false /\
  issubclass ValueError Exception = true /\
  issubclass ValueError DomainException = false.
Proof. by vm_compute. Qed.

(** Two of three messages share a timestamp and come back in the order
    they were added. *)
Lemma get_latest_messages_stable_witness :
  exists m1 m2 m3,
    [sample_message 7%N 20 "a"; sample_message 7%N 21 "b"; sample_message 7%N 20 "c"]
    = m1 ++ sample_message 7%N 20 "a" :: m2 ++ sample_message 7%N 20 "c" :: m3.
Proof.
  destruct (get_latest_messages_stable 3
              (Conversation.mk (py "Trip planning") 1%N 7%N 10 30 false
                 [sample_message 7%N 20 "a"; sample_message 7%N 21 "b";
                  sample_message 7%N 20 "c"])
              ticking_world)
    as (out & E & _ & _ & Hpair & _).
  injection E as <-.
  exact (Hpair [sample_message 7%N 21 "b"] [] []
           (sample_message 7%N 20 "a") (sample_message 7%N 20 "c")
           eq_refl eq_refl).
Defined.

(** * Further properties of the aggregate *)

(** ** Sequences of operations *)

(** What one call keeps, every sequence of calls keeps. *)
Lemma call_each_invariant {St A : Type} (f : A -> Py St unit) (P : St -> Prop) :
  (forall a st, P st -> P (snd (f a st))) ->
  forall args st, P st -> P (snd (call_each f args st)).
Proof.
  intros Hstep. induction args as [|a args IH]; intros st Hst; [exact Hst|].
  rewrite call_each_cons. specialize (Hstep a st Hst).
  destruct (f a st) as [[[]|e] st']; simpl in Hstep; [by apply IH | exact Hstep].
Qed.

(** One operation: it fails and leaves everything as it was, or it is a
    query and returns with everything as it was, or it returns one clock
    reading later with [updated_at] set to that reading. *)
Lemma run_op_outcome (op : Op) (c : Conversation.Conversation) (w : World) :
  (exists msg, run_op op (c, w) = (Raise (mkExc ValueError msg), (c, w))) \/
  (added_messages [op] = [] /\ run_op op (c, w) = (Return tt, (c, w))) \/
  (exists c', run_op op (c, w) = (Return tt, (c', ticked w)) /\
              Conversation.updated_at c' = now w /\
              Conversation.id c' = Conversation.id c /\
              Conversation.created_by c' = Conversation.created_by c /\
              Conversation.created_at c' = Conversation.created_at c /\
              (Conversation.title c' = Conversation.title c \/
               ~ blank (Conversation.title c')) /\
              Conversation.messages c'
              = Conversation.messages c ++ added_messages [op]).
Proof.
  destruct op as [m|t| | |k].
  - right; right. eexists. split; [apply add_message_eval|].
    simpl. repeat split; eauto.
  - destruct (blank_dec t) as [Ht|Ht].
    + left. eexists. apply (update_title_rejects t c w Ht).
    + right; right. eexists. split; [apply (update_title_accepts t c w Ht)|].
      simpl. rewrite app_nil_r. repeat split; eauto.
  - right; right. eexists. split; [apply archive_eval|].
    simpl. rewrite app_nil_r. repeat split; eauto.
  - right; right. eexists. split; [apply unarchive_eval|].
    simpl. rewrite app_nil_r. repeat split; eauto.
  - right; left. by split.
Qed.

Lemma added_messages_cons (op : Op) (ops : list Op) :
  added_messages (op :: ops) = added_messages [op] ++ added_messages ops.
Proof. by destruct op. Qed.


(** X2.  No sequence of operations changes a conversation's [id],
    [created_by] or [created_at]. *)
Theorem conversation_identity_is_immutable (ops : list Op)
    (c : Conversation.Conversation) (w : World) :
  Conversation.id (fst (snd (call_each run_op ops (c, w)))) = Conversation.id c /\
  Conversation.created_by (fst (snd (call_each run_op ops (c, w))))
  = Conversation.created_by c /\
  Conversation.created_at (fst (snd (call_each run_op ops (c, w))))
  = Conversation.created_at c.
Proof.
  apply (call_each_invariant run_op
           (fun st => Conversation.id (fst st) = Conversation.id c /\
                      Conversation.created_by (fst st) = Conversation.created_by c /\
                      Conversation.created_at (fst st) = Conversation.created_at c));
    [|done].
  intros op [c1 w1] (H1 & H2 & H3). simpl in *.
  destruct (run_op_outcome op c1 w1)
    as [[msg E]|[[_ E]|(c' & E & _ & Hi & Hb & Ha & _)]];
    rewrite E; simpl; [done|done|].
  by rewrite Hi, Hb, Ha.
Qed.

(** X3.  The messages only grow, whatever the operations: the messages
    before a sequence of operations are a prefix of the messages after it,
    and when every operation of the sequence returns, the messages after
    it are those before it followed by the ones handed to [add_message], in
    call order. *)
Theorem messages_only_grow (ops : list Op) (c : Conversation.Conversation)
    (w : World) :
  Conversation.messages c
    `prefix_of` Conversation.messages (fst (snd (call_each run_op ops (c, w)))) /\
  (fst (call_each run_op ops (c, w)) = Return tt ->
   Conversation.messages (fst (snd (call_each run_op ops (c, w))))
   = Conversation.messages c ++ added_messages ops).
Proof.
  revert c w. induction ops as [|op ops IH]; intros c w.
  - split; [done|]. intros _. simpl. by rewrite app_nil_r.
  - rewrite call_each_cons, (added_messages_cons op ops).
    destruct (run_op_outcome op c w)
      as [[msg E]|[[Hq E]|(c' & E & _ & _ & _ & _ & _ & Hm)]]; rewrite E.
    + split; [done | discriminate].
    + destruct (IH c w) as [Hp He]. split; [exact Hp|].
      intros Hr. by rewrite (He Hr), Hq.
    + destruct (IH c' (ticked w)) as [Hp He]. split.
      * etransitivity; [|exact Hp]. rewrite Hm. by apply prefix_app_r.
      * intros Hr. by rewrite (He Hr), Hm, <- app_assoc.
Qed.

(** X4.  The title is checked by [update_title] only.  The constructor
    takes any title, the empty one too; and a title that is not blank
    stays not blank through every sequence of operations. *)
Theorem title_checked_by_update_only :
  (forall (title : list N) (created_by : N) (w : World),
      exists c w', Conversation.create title created_by w = (Return c, w') /\
                   Conversation.title c = title) /\
  (forall (ops : list Op) (c : Conversation.Conversation) (w : World),
      ~ blank (Conversation.title c) ->
      ~ blank (Conversation.title (fst (snd (call_each run_op ops (c, w)))))).
Proof.
  split.
  - intros. rewrite conversation_init_eval. by eexists _, _.
  - intros ops c w Hc.
    apply (call_each_invariant run_op
             (fun st => ~ blank (Conversation.title (fst st)))); [|exact Hc].
    intros op [c1 w1] H1. simpl in H1.
    destruct (run_op_outcome op c1 w1)
      as [[msg E]|[[_ E]|(c' & E & _ & _ & _ & _ & Ht & _)]];
      rewrite E; simpl; [done|done|].
    destruct Ht as [->|Ht]; done.
Qed.

(** A blank title is accepted at construction; a valid one survives a
    failed and a successful update. *)
Lemma title_checked_by_update_only_witness :
  (exists c w', Conversation.create [] 1%N ticking_world = (Return c, w') /\
                Conversation.title c = []) /\
  ~ blank (Conversation.title
             (fst (snd (call_each run_op [UpdateTitle (py "Rome"); UpdateTitle (py " ")]
                          (sample_conversation, ticking_world))))).
Proof.
  split.
  - exact (proj1 title_checked_by_update_only [] 1%N ticking_world).
  - apply (proj2 title_checked_by_update_only).
    apply guard_false_iff. reflexivity.
Defined.

Lemma run_op_keeps_clock (op : Op) (c : Conversation.Conversation) (w : World) :
  clock_monotone w -> clock_monotone (snd (snd (run_op op (c, w)))).
Proof.
  intros Hw.
  destruct (run_op_outcome op c w) as [[msg E]|[[_ E]|(c' & E & _)]];
    rewrite E; simpl; [done|done|].
  by apply clock_monotone_ticked.
Qed.

Lemma timestamps_through_operations (ops : list Op)
    (c : Conversation.Conversation) (w : World) :
  clock_monotone w ->
  Conversation.updated_at c <= now w ->
  Conversation.created_at c <= Conversation.updated_at c ->
  Conversation.updated_at c
  <= Conversation.updated_at (fst (snd (call_each run_op ops (c, w)))) /\
  Conversation.created_at (fst (snd (call_each run_op ops (c, w))))
  <= Conversation.updated_at (fst (snd (call_each run_op ops (c, w)))) /\
  Conversation.updated_at (fst (snd (call_each run_op ops (c, w))))
  <= now (snd (snd (call_each run_op ops (c, w)))).
Proof.
  intros Hw Hu Hc.
  enough (clock_monotone (snd (snd (call_each run_op ops (c, w)))) /\
          Conversation.created_at (fst (snd (call_each run_op ops (c, w))))
          = Conversation.created_at c /\
          Conversation.updated_at c
          <= Conversation.updated_at (fst (snd (call_each run_op ops (c, w)))) /\
          Conversation.updated_at (fst (snd (call_each run_op ops (c, w))))
          <= now (snd (snd (call_each run_op ops (c, w))))) as (_ & Hca & H1 & H2).
  { split; [exact H1|]. split; [rewrite Hca; lia | exact H2]. }
  apply (call_each_invariant run_op
           (fun st => clock_monotone (snd st) /\
                      Conversation.created_at (fst st) = Conversation.created_at c /\
                      Conversation.updated_at c <= Conversation.updated_at (fst st) /\
                      Conversation.updated_at (fst st) <= now (snd st)));
    [|done].
  intros op [c1 w1] (Hw1 & Hc1 & Hu1 & Hn1). simpl in *.
  pose proof (run_op_keeps_clock op c1 w1 Hw1) as Hk.
  destruct (run_op_outcome op c1 w1)
    as [[msg E]|[[_ E]|(c' & E & Hup & _ & _ & Hca & _)]];
    rewrite E in Hk |- *; simpl in *; [done|done|].
  split; [exact Hk|]. split; [congruence|].
  rewrite Hup. split; [lia|]. by apply now_le_now_ticked.
Qed.

(** X5.  On a clock that does not run backwards, and for a conversation
    whose [updated_at] is not ahead of the clock, no sequence of operations
    lowers [updated_at], and [created_at <= updated_at] is kept. *)
Theorem updated_at_never_decreases (ops : list Op)
    (c : Conversation.Conversation) (w : World) :
  clock_monotone w ->
  Conversation.updated_at c <= now w ->
  Conversation.created_at c <= Conversation.updated_at c ->
  Conversation.updated_at c
  <= Conversation.updated_at (fst (snd (call_each run_op ops (c, w)))) /\
  Conversation.created_at (fst (snd (call_each run_op ops (c, w))))
  <= Conversation.updated_at (fst (snd (call_each run_op ops (c, w)))) /\
  Conversation.updated_at (fst (snd (call_each run_op ops (c, w))))
  <= now (snd (snd (call_each run_op ops (c, w)))).
Proof. apply timestamps_through_operations. Qed.

(** The sample conversation at the ticking clock: archived, retitled, then
    queried. *)
Lemma updated_at_never_decreases_witness :
  Conversation.updated_at sample_conversation
  <= Conversation.updated_at
       (fst (snd (call_each run_op
                    [Archive; UpdateTitle (py "Rome"); GetLatestMessages 3]
                    (sample_conversation, ticking_world)))).
Proof.
  apply (updated_at_never_decreases
           [Archive; UpdateTitle (py "Rome"); GetLatestMessages 3]
           sample_conversation ticking_world ticking_world_monotone).
  - vm_compute. discriminate.
  - simpl. lia.
Defined.

(** X6.  On a clock that does not run backwards, a conversation created
    with its defaults has [created_at <= updated_at], and keeps it through
    every sequence of operations that follows. *)
Theorem created_conversation_timestamps_ordered (title : list N)
    (created_by : N) (ops : list Op) (w : World) :
  clock_monotone w ->
  exists c w',
    Conversation.create title created_by w = (Return c, w') /\
    Conversation.created_at c <= Conversation.updated_at c /\
    Conversation.created_at (fst (snd (call_each run_op ops (c, w'))))
    <= Conversation.updated_at (fst (snd (call_each run_op ops (c, w')))).
Proof.
  intros Hw. rewrite conversation_init_eval. eexists _, _. split; [reflexivity|].
  assert (Hle : now w <= now (ticked w)) by (by apply now_le_now_ticked).
  split; [exact Hle|].
  eapply timestamps_through_operations.
  - intros i j Hij. by apply Hw.
  - simpl. apply Hw. lia.
  - exact Hle.
Qed.

(** Creation, then three operations, at the ticking clock. *)
Lemma created_conversation_timestamps_ordered_witness :
  exists c w',
    Conversation.create (py "Trip planning") 1%N ticking_world = (Return c, w') /\
    Conversation.created_at (fst (snd (call_each run_op
        [AddMessage (sample_message 100%N 5 "hi"); Archive; Unarchive] (c, w'))))
    <= Conversation.updated_at (fst (snd (call_each run_op
        [AddMessage (sample_message 100%N 5 "hi"); Archive; Unarchive] (c, w')))).
Proof.
  destruct (created_conversation_timestamps_ordered (py "Trip planning") 1%N
              [AddMessage (sample_message 100%N 5 "hi"); Archive; Unarchive]
              ticking_world ticking_world_monotone)
    as (c & w' & E & _ & H).
  by exists c, w'.
Defined.

(** X7.  [update_title] does not compare the new title with the current
    one: setting the title the conversation already has still moves
    [updated_at] to the clock's reading; and of two updates in a row the
    second one's title and reading remain. *)
Theorem update_title_always_touches (t1 t2 : list N)
    (c : Conversation.Conversation) (w : World) :
  ~ blank t1 -> ~ blank t2 ->
  (Conversation.title c = t1 ->
   exists c',
     Conversation.update_title t1 (c, w) = (Return tt, (c', ticked w)) /\
     Conversation.title c' = Conversation.title c /\
     Conversation.updated_at c' = utcnow_readings w (clock_reads w)) /\
  (exists c',
     (Conversation.update_title t1 ;;; Conversation.update_title t2)%py (c, w)
     = (Return tt, (c', ticked (ticked w))) /\
     Conversation.title c' = t2 /\
     Conversation.updated_at c' = utcnow_readings w (S (clock_reads w))).
Proof.
  intros H1 H2. split.
  - intros Ht. rewrite (update_title_accepts t1 c w H1).
    eexists. split; [reflexivity|]. by simpl.
  - unfold bind. rewrite (update_title_accepts t1 c w H1).
    rewrite (update_title_accepts t2 _ _ H2).
    eexists. split; [reflexivity|]. by simpl.
Qed.

(** The sample conversation, given its own title again and then another. *)
Lemma update_title_always_touches_witness :
  (exists c',
     Conversation.update_title (py "Trip planning") (sample_conversation, ticking_world)
     = (Return tt, (c', ticked ticking_world)) /\
     Conversation.title c' = Conversation.title sample_conversation /\
     Conversation.updated_at c' = 1700000000000000) /\
  (exists c',
     (Conversation.update_title (py "Trip planning") ;;;
      Conversation.update_title (py "Rome"))%py (sample_conversation, ticking_world)
     = (Return tt, (c', ticked (ticked ticking_world))) /\
     Conversation.title c' = py "Rome" /\
     Conversation.updated_at c' = 1700000000000001).
Proof.
  assert (H1 : ~ blank (py "Trip planning")) by (apply guard_false_iff; reflexivity).
  assert (H2 : ~ blank (py "Rome")) by (apply guard_false_iff; reflexivity).
  destruct (update_title_always_touches (py "Trip planning") (py "Rome")
              sample_conversation ticking_world H1 H2) as [Ha Hb].
  split; [exact (Ha eq_refl) | exact Hb].
Defined.

(** ** More on [get_latest_messages] *)

Lemma slice_to_ge {A : Type} (l : list A) (stop : Z) :
  Z.of_nat (length l) <= stop -> slice_to l stop = l.
Proof.
  intros H. unfold slice_to.
  assert ((stop <? 0) = false) as -> by (apply Z.ltb_ge; lia).
  apply take_ge. lia.
Qed.

Lemma slice_to_nonneg {A : Type} (l : list A) (stop : Z) :
  0 <= stop -> slice_to l stop = take (Z.to_nat stop) l.
Proof.
  intros H. unfold slice_to.
  assert ((stop <? 0) = false) as -> by (apply Z.ltb_ge; lia).
  destruct (decide (stop <= Z.of_nat (length l))).
  - by rewrite Z.min_l.
  - rewrite Z.min_r by lia. rewrite Nat2Z.id.
    rewrite firstn_all. symmetry. apply take_ge. lia.
Qed.

Lemma slice_to_neg {A : Type} (l : list A) (stop : Z) :
  stop < 0 -> slice_to l stop = take (length l - Z.to_nat (- stop)) l.
Proof.
  intros H. unfold slice_to.
  assert ((stop <? 0) = true) as -> by (apply Z.ltb_lt; lia).
  f_equal. lia.
Qed.

Lemma sorted_reverse_length {A : Type} (key : A -> Z) (l : list A) :
  length (sorted key true l) = length l.
Proof. by rewrite (sorted_reverse_perm key l). Qed.

(** X8.  With a limit of at least the number of messages,
    [get_latest_messages] returns all of them (newest first); with limit 0
    it returns none. *)
Theorem get_latest_messages_all_or_none (k : Z)
    (c : Conversation.Conversation) (w : World) :
  (Z.of_nat (length (Conversation.messages c)) <= k ->
   exists out,
     Conversation.get_latest_messages k (c, w) = (Return out, (c, w)) /\
     out ≡ₚ Conversation.messages c /\ newest_first out) /\
  (k = 0 -> Conversation.get_latest_messages k (c, w) = (Return [], (c, w))).
Proof.
  rewrite get_latest_messages_eval. split.
  - intros Hk. eexists. split; [reflexivity|].
    rewrite slice_to_ge by (by rewrite sorted_reverse_length).
    split; [apply sorted_reverse_perm | apply sorted_reverse_descending].
  - intros ->. by rewrite slice_to_nonneg.
Qed.

(** Two messages and the default limit. *)
Lemma get_latest_messages_all_or_none_witness :
  exists out,
    Conversation.get_latest_messages 10
      (Conversation.mk (py "Trip planning") 1%N 7%N 10 30 false
         [sample_message 7%N 20 "first"; sample_message 7%N 21 "second"],
       ticking_world)
    = (Return out,
       (Conversation.mk (py "Trip planning") 1%N 7%N 10 30 false
          [sample_message 7%N 20 "first"; sample_message 7%N 21 "second"],
        ticking_world)) /\
    out ≡ₚ [sample_message 7%N 20 "first"; sample_message 7%N 21 "second"] /\
    newest_first out.
Proof.
  apply (proj1 (get_latest_messages_all_or_none 10
                  (Conversation.mk (py "Trip planning") 1%N 7%N 10 30 false
                     [sample_message 7%N 20 "first"; sample_message 7%N 21 "second"])
                  ticking_world)).
  simpl. lia.
Defined.

(** X9.  Raising the limit only adds older messages at the end: for
    [0 <= k <= k'] the answer for [k] is a prefix of the answer for [k']. *)
Theorem get_latest_messages_limit_monotone (k k' : Z)
    (c : Conversation.Conversation) (w : World) :
  0 <= k -> k <= k' ->
  exists out out',
    Conversation.get_latest_messages k (c, w) = (Return out, (c, w)) /\
    Conversation.get_latest_messages k' (c, w) = (Return out', (c, w)) /\
    out `prefix_of` out'.
Proof.
  intros Hk Hkk'. rewrite !get_latest_messages_eval.
  eexists _, _. split; [reflexivity|]. split; [reflexivity|].
  rewrite !slice_to_nonneg by lia.
  set (S := sorted _ _ _).
  replace (Z.to_nat k) with (Z.to_nat k `min` Z.to_nat k')%nat by lia.
  rewrite <- take_take. apply prefix_take.
Qed.

(** Limits 1 and 2 on three messages. *)
Lemma get_latest_messages_limit_monotone_witness :
  exists out out',
    Conversation.get_latest_messages 1
      (Conversation.mk (py "Trip planning") 1%N 7%N 10 30 false
         [sample_message 7%N 20 "a"; sample_message 7%N 21 "b";
          sample_message 7%N 20 "c"], ticking_world)
    = (Return out,
       (Conversation.mk (py "Trip planning") 1%N 7%N 10 30 false
          [sample_message 7%N 20 "a"; sample_message 7%N 21 "b";
           sample_message 7%N 20 "c"], ticking_world)) /\
    Conversation.get_latest_messages 2
      (Conversation.mk (py "Trip planning") 1%N 7%N 10 30 false
         [sample_message 7%N 20 "a"; sample_message 7%N 21 "b";
          sample_message 7%N 20 "c"], ticking_world)
    = (Return out',
       (Conversation.mk (py "Trip planning") 1%N 7%N 10 30 false
          [sample_message 7%N 20 "a"; sample_message 7%N 21 "b";
           sample_message 7%N 20 "c"], ticking_world)) /\
    out `prefix_of` out'.
Proof.
  apply (get_latest_messages_limit_monotone 1 2); lia.
Defined.

(** X10.  A negative limit [k] leaves out the [-k] oldest messages instead
    of keeping [k]: the call returns [max 0 (len messages + k)] messages,
    newest first, and the ones left out, [min (-k) (len messages)] of them,
    are none newer than a returned one. *)
Theorem get_latest_messages_negative_limit_drops (k : Z)
    (c : Conversation.Conversation) (w : World) :
  k < 0 ->
  exists out dropped,
    Conversation.get_latest_messages k (c, w) = (Return out, (c, w)) /\
    Z.of_nat (length out) = Z.max 0 (Z.of_nat (length (Conversation.messages c)) + k) /\
    Z.of_nat (length dropped) = Z.min (- k) (Z.of_nat (length (Conversation.messages c))) /\
    Conversation.messages c ≡ₚ out ++ dropped /\
    newest_first (out ++ dropped).
Proof.
  intros Hk. rewrite get_latest_messages_eval.
  set (S := sorted Message.timestamp true (Conversation.messages c)).
  assert (Hlen : length S = length (Conversation.messages c))
    by apply sorted_reverse_length.
  rewrite slice_to_neg by done.
  exists (take (length S - Z.to_nat (- k)) S), (drop (length S - Z.to_nat (- k)) S).
  split; [reflexivity|].
  rewrite length_take, length_drop, take_drop.
  split; [lia|]. split; [lia|].
  split; [symmetry; apply sorted_reverse_perm | apply sorted_reverse_descending].
Qed.

(** Limit -1 on two messages: the older one is left out. *)
Lemma get_latest_messages_negative_limit_drops_witness :
  exists out dropped : list Message.Message,
    Conversation.get_latest_messages (-1)
      (Conversation.mk (py "Trip planning") 1%N 7%N 10 30 false
         [sample_message 7%N 20 "first"; sample_message 7%N 21 "second"],
       ticking_world)
    = (Return out,
       (Conversation.mk (py "Trip planning") 1%N 7%N 10 30 false
          [sample_message 7%N 20 "first"; sample_message 7%N 21 "second"],
        ticking_world)) /\
    Z.of_nat (length out) = 1 /\ Z.of_nat (length dropped) = 1.
Proof.
  destruct (get_latest_messages_negative_limit_drops (-1)
              (Conversation.mk (py "Trip planning") 1%N 7%N 10 30 false
                 [sample_message 7%N 20 "first"; sample_message 7%N 21 "second"])
              ticking_world) as (out & dropped & E & H1 & H2 & _); [lia|].
  exists out, dropped. split; [exact E|]. split; [exact H1 | exact H2].
Defined.

Lemma filter_none {A : Type} (P : A -> Prop) `{!forall x, Decision (P x)}
    (l : list A) :
  Forall (fun x => ~ P x) l -> filter P l = [].
Proof.
  induction 1 as [|x l Hx _ IH]; [done|].
  by rewrite filter_cons_False.
Qed.

(** The head of a descending stable sort: the first, in the input, of the
    elements with the greatest key. *)
Lemma sorted_reverse_head {A : Type} (key : A -> Z) (l1 l2 : list A) (m : A) :
  Forall (fun a => key a < key m) l1 ->
  Forall (fun a => key a <= key m) l2 ->
  exists rest, sorted key true (l1 ++ m :: l2) = m :: rest.
Proof.
  intros H1 H2.
  pose proof (sorted_reverse_perm key (l1 ++ m :: l2)) as Hp.
  pose proof (sorted_reverse_descending key (l1 ++ m :: l2)) as Hd.
  pose proof (sorted_reverse_keyed key (key m) (l1 ++ m :: l2)) as Hk.
  destruct (sorted key true (l1 ++ m :: l2)) as [|a S].
  { apply Permutation_nil_l in Hp. by destruct l1. }
  exists S. f_equal.
  apply StronglySorted_cons in Hd as [Ha _]. rewrite Forall_forall in Ha.
  assert (Hma : key m <= key a).
  { assert (m ∈ a :: S) as Hin by (rewrite Hp; set_solver).
    apply elem_of_cons in Hin as [->|Hin]; [lia | by apply Ha]. }
  assert (Ham : key a <= key m).
  { assert (a ∈ l1 ++ m :: l2) as Hin by (rewrite <- Hp; left).
    rewrite Forall_forall in H1, H2.
    apply elem_of_app in Hin as [Hin|Hin]; [specialize (H1 _ Hin); simpl in H1; lia|].
    apply elem_of_cons in Hin as [->|Hin]; [lia | by apply H2]. }
  rewrite filter_cons_True in Hk by lia.
  rewrite filter_app, filter_cons_True in Hk by done.
  rewrite (filter_none _ l1) in Hk.
  - simpl in Hk. by injection Hk.
  - eapply Forall_impl; [exact H1|]. intros x Hx. simpl in *. lia.
Qed.

(** X11.  For a limit of at least 1, the first message returned is, of the
    messages with the greatest timestamp, the one added first: a message
    older than it was added before it or not at all, and nothing added
    after it is newer. *)
Theorem get_latest_messages_head (k : Z) (c : Conversation.Conversation)
    (w : World) (l1 l2 : list Message.Message) (m : Message.Message) :
  1 <= k ->
  Conversation.messages c = l1 ++ m :: l2 ->
  Forall (fun a => Message.timestamp a < Message.timestamp m) l1 ->
  Forall (fun a => Message.timestamp a <= Message.timestamp m) l2 ->
  exists rest,
    Conversation.get_latest_messages k (c, w) = (Return (m :: rest), (c, w)).
Proof.
  intros Hk Hm H1 H2. rewrite get_latest_messages_eval, Hm.
  destruct (sorted_reverse_head Message.timestamp l1 l2 m H1 H2) as [S ->].
  rewrite slice_to_nonneg by lia.
  destruct (Z.to_nat k) as [|n] eqn:E; [lia|].
  eexists. reflexivity.
Qed.

(** Of two messages stamped 21 and one stamped 20, the first stamped 21. *)
Lemma get_latest_messages_head_witness :
  exists rest,
    Conversation.get_latest_messages 1
      (Conversation.mk (py "Trip planning") 1%N 7%N 10 30 false
         [sample_message 7%N 20 "a"; sample_message 7%N 21 "b";
          sample_message 7%N 21 "c"], ticking_world)
    = (Return (sample_message 7%N 21 "b" :: rest),
       (Conversation.mk (py "Trip planning") 1%N 7%N 10 30 false
          [sample_message 7%N 20 "a"; sample_message 7%N 21 "b";
           sample_message 7%N 21 "c"], ticking_world)).
Proof.
  apply (get_latest_messages_head 1 _ _
           [sample_message 7%N 20 "a"] [sample_message 7%N 21 "c"]
           (sample_message 7%N 21 "b")).
  - lia.
  - reflexivity.
  - repeat constructor.
  - constructor; [simpl; lia | constructor].
Defined.

(** X12.  A message newer than every message of the conversation is, once
    added, the one [get_latest_messages(1)] returns.  A message only as
    new as an earlier one is not: the earlier one is returned. *)
Theorem add_message_then_latest (m : Message.Message)
    (c : Conversation.Conversation) (w : World) :
  (Forall (fun a => Message.timestamp a < Message.timestamp m)
          (Conversation.messages c) ->
   fst ((Conversation.add_message m ;;; Conversation.get_latest_messages 1)%py (c, w))
   = Return [m]) /\
  (forall l1 l2 a,
      Conversation.messages c = l1 ++ a :: l2 ->
      Forall (fun b => Message.timestamp b < Message.timestamp a) l1 ->
      Forall (fun b => Message.timestamp b <= Message.timestamp a) l2 ->
      Message.timestamp m <= Message.timestamp a ->
      fst ((Conversation.add_message m ;;; Conversation.get_latest_messages 1)%py (c, w))
      = Return [a]).
Proof.
  unfold bind. rewrite add_message_eval, get_latest_messages_eval. simpl fst.
  simpl Conversation.messages. split.
  - intros H.
    destruct (sorted_reverse_head Message.timestamp (Conversation.messages c) [] m H)
      as [S HS]; [constructor|].
    unfold sorted in HS. rewrite HS. by rewrite slice_to_nonneg.
  - intros l1 l2 a Hc H1 H2 Hm. rewrite Hc, <- app_assoc. simpl.
    destruct (sorted_reverse_head Message.timestamp l1 (l2 ++ [m]) a H1) as [S HS].
    + apply Forall_app. split; [exact H2 | by constructor].
    + unfold sorted in HS. rewrite HS. by rewrite slice_to_nonneg.
Qed.

(** A newer message added to a conversation of one message, and a message
    with the same timestamp added to it. *)
Lemma add_message_then_latest_witness :
  fst ((Conversation.add_message (sample_message 7%N 21 "second") ;;;
        Conversation.get_latest_messages 1)%py
         (Conversation.mk (py "Trip planning") 1%N 7%N 10 30 false
            [sample_message 7%N 20 "first"], ticking_world))
  = Return [sample_message 7%N 21 "second"] /\
  fst ((Conversation.add_message (sample_message 7%N 20 "second") ;;;
        Conversation.get_latest_messages 1)%py
         (Conversation.mk (py "Trip planning") 1%N 7%N 10 30 false
            [sample_message 7%N 20 "first"], ticking_world))
  = Return [sample_message 7%N 20 "first"].
Proof.
  split.
  - apply (proj1 (add_message_then_latest (sample_message 7%N 21 "second")
                    (Conversation.mk (py "Trip planning") 1%N 7%N 10 30 false
                       [sample_message 7%N 20 "first"]) ticking_world)).
    constructor; [simpl; lia | constructor].
  - apply (proj2 (add_message_then_latest (sample_message 7%N 20 "second")
                    (Conversation.mk (py "Trip planning") 1%N 7%N 10 30 false
                       [sample_message 7%N 20 "first"]) ticking_world)
             [] [] (sample_message 7%N 20 "first")).
    + reflexivity.
    + constructor.
    + constructor.
    + simpl. lia.
Defined.

(** ** More on Message *)

Lemma add_metadata_eval (k : list N) (v : PyObject) (m : Message.Message)
    (w : World) :
  Message.add_metadata k v (m, w)
  = (Return tt, (Message.set_metadata (<[k := v]> (Message.metadata m)) m, w)).
Proof. reflexivity. Qed.

(** X13.  The three classification predicates partition the messages:
    exactly one of [is_user_message], [is_ai_message] and
    [is_system_message] holds of a message, and [update_content] and
    [add_metadata] never move a message to another class. *)
Theorem message_classification_partition (m : Message.Message) :
  ((Message.is_user_message m = true /\ Message.is_ai_message m = false
    /\ Message.is_system_message m = false) \/
   (Message.is_user_message m = false /\ Message.is_ai_message m = true
    /\ Message.is_system_message m = false) \/
   (Message.is_user_message m = false /\ Message.is_ai_message m = false
    /\ Message.is_system_message m = true)) /\
  (forall (ops : list MessageOp) (w : World),
      let m' := fst (snd (call_each run_message_op ops (m, w))) in
      Message.is_user_message m' = Message.is_user_message m /\
      Message.is_ai_message m' = Message.is_ai_message m /\
      Message.is_system_message m' = Message.is_system_message m).
Proof.
  split.
  - unfold Message.is_user_message, Message.is_ai_message, Message.is_system_message.
    destruct (Message.message_type m); simpl; tauto.
  - intros ops w m'. subst m'.
    enough (Message.message_type (fst (snd (call_each run_message_op ops (m, w))))
            = Message.message_type m) as E.
    { unfold Message.is_user_message, Message.is_ai_message,
        Message.is_system_message. by rewrite E. }
    apply (call_each_invariant run_message_op
             (fun st => Message.message_type (fst st) = Message.message_type m));
      [|done].
    intros [s|k v] [m1 w1] H1; simpl in *; [|exact H1].
    destruct (blank_dec s) as [Hs|Hs].
    + by rewrite update_content_rejects.
    + by rewrite update_content_accepts.
Qed.

(** X14.  No sequence of [update_content] and [add_metadata] calls changes
    a message's [id], [sender_id], [message_type], [conversation_id] or
    [timestamp]; nor does it read the clock or draw an identifier. *)
Theorem message_identity_is_immutable (ops : list MessageOp)
    (m : Message.Message) (w : World) :
  Message.id (fst (snd (call_each run_message_op ops (m, w)))) = Message.id m /\
  Message.sender_id (fst (snd (call_each run_message_op ops (m, w))))
  = Message.sender_id m /\
  Message.message_type (fst (snd (call_each run_message_op ops (m, w))))
  = Message.message_type m /\
  Message.conversation_id (fst (snd (call_each run_message_op ops (m, w))))
  = Message.conversation_id m /\
  Message.timestamp (fst (snd (call_each run_message_op ops (m, w))))
  = Message.timestamp m /\
  snd (snd (call_each run_message_op ops (m, w))) = w.
Proof.
  apply (call_each_invariant run_message_op
           (fun st => Message.id (fst st) = Message.id m /\
                      Message.sender_id (fst st) = Message.sender_id m /\
                      Message.message_type (fst st) = Message.message_type m /\
                      Message.conversation_id (fst st) = Message.conversation_id m /\
                      Message.timestamp (fst st) = Message.timestamp m /\
                      snd st = w)); [|done].
  intros [s|k v] [m1 w1] H1; simpl in *; [|exact H1].
  destruct (blank_dec s) as [Hs|Hs].
  - by rewrite update_content_rejects.
  - by rewrite update_content_accepts.
Qed.

(** X15.  [add_metadata] is an upsert that checks nothing: for every key
    (the empty one too) and value it returns, the key then maps to the
    value, every other key maps to what it mapped to, and the content and
    the other fields are as before. *)
Theorem add_metadata_upsert (k : list N) (v : PyObject) (m : Message.Message)
    (w : World) :
  exists m',
    Message.add_metadata k v (m, w) = (Return tt, (m', w)) /\
    Message.metadata m' !! k = Some v /\
    (forall k', k' <> k -> Message.metadata m' !! k' = Message.metadata m !! k') /\
    Message.content m' = Message.content m /\
    Message.id m' = Message.id m /\
    Message.sender_id m' = Message.sender_id m /\
    Message.message_type m' = Message.message_type m /\
    Message.conversation_id m' = Message.conversation_id m /\
    Message.timestamp m' = Message.timestamp m.
Proof.
  rewrite add_metadata_eval. eexists. split; [reflexivity|]. simpl.
  split; [apply lookup_insert_eq|].
  split; [|done]. intros k' Hk. by apply lookup_insert_ne.
Qed.

(** X16.  Of two [add_metadata] calls on one key the second value
    remains; calls on different keys can be swapped; and adding a pair the
    metadata already holds changes nothing. *)
Theorem add_metadata_composes (k1 k2 : list N) (v1 v2 : PyObject)
    (m : Message.Message) (w : World) :
  (Message.add_metadata k1 v1 ;;; Message.add_metadata k1 v2)%py (m, w)
  = Message.add_metadata k1 v2 (m, w) /\
  (k1 <> k2 ->
   (Message.add_metadata k1 v1 ;;; Message.add_metadata k2 v2)%py (m, w)
   = (Message.add_metadata k2 v2 ;;; Message.add_metadata k1 v1)%py (m, w)) /\
  (Message.metadata m !! k1 = Some v1 ->
   Message.add_metadata k1 v1 (m, w) = (Return tt, (m, w))).
Proof.
  unfold bind. rewrite !add_metadata_eval. simpl.
  unfold Message.set_metadata. simpl. split; [|split].
  - by rewrite insert_insert_eq.
  - intros Hk. by rewrite insert_insert_ne.
  - intros Hv. rewrite insert_id by done. by destruct m.
Qed.

(** Two keys on a sample message, and a pair added twice. *)
Lemma add_metadata_composes_witness :
  (Message.add_metadata (py "lang") (PyStr (py "en")) ;;;
   Message.add_metadata (py "tokens") (PyInt 12))%py
    (sample_message 7%N 20 "hi", ticking_world)
  = (Message.add_metadata (py "tokens") (PyInt 12) ;;;
     Message.add_metadata (py "lang") (PyStr (py "en")))%py
      (sample_message 7%N 20 "hi", ticking_world) /\
  Message.add_metadata (py "lang") (PyStr (py "en"))
    (Message.set_metadata {[ py "lang" := PyStr (py "en") ]}
       (sample_message 7%N 20 "hi"), ticking_world)
  = (Return tt,
     (Message.set_metadata {[ py "lang" := PyStr (py "en") ]}
        (sample_message 7%N 20 "hi"), ticking_world)).
Proof.
  split.
  - apply (proj1 (proj2 (add_metadata_composes (py "lang") (py "tokens")
                           (PyStr (py "en")) (PyInt 12)
                           (sample_message 7%N 20 "hi") ticking_world))).
    by vm_compute.
  - apply (proj2 (proj2 (add_metadata_composes (py "lang") (py "lang")
                           (PyStr (py "en")) (PyStr (py "en"))
                           (Message.set_metadata {[ py "lang" := PyStr (py "en") ]}
                              (sample_message 7%N 20 "hi")) ticking_world))).
    apply lookup_singleton_eq.
Defined.

(** ** The exception classes *)

(** X17.  [DomainException] is the root of exactly the seven classes of
    [domain/exceptions.py]: a class is a subclass of it if and only if it
    is one of them.  Each of them is an [Exception], none is a
    [ValueError], and the six kinds below the root are unrelated to one
    another: a handler for one kind catches no other kind. *)
Theorem domain_exception_taxonomy (c d : ExcClass) :
  (issubclass c DomainException = true <-> c ∈ domain_exceptions) /\
  (c ∈ domain_exceptions ->
   issubclass c Exception = true /\ issubclass c ValueError = false
   /\ issubclass ValueError c = false) /\
  (c ∈ domain_exceptions -> d ∈ domain_exceptions ->
   c <> DomainException -> d <> DomainException -> c <> d ->
   issubclass c d = false).
Proof.
  rewrite <- !(bool_decide_eq_true (c ∈ domain_exceptions)).
  rewrite <- !(bool_decide_eq_true (d ∈ domain_exceptions)).
  split; [|split].
  - destruct c; vm_compute; by split.
  - destruct c; vm_compute; intros H; by try discriminate H.
  - destruct c, d; vm_compute; intros Hc Hd Hc' Hd' Hcd;
      first [reflexivity | discriminate Hc | discriminate Hd
            | exfalso; by apply Hc' | exfalso; by apply Hd'
            | exfalso; by apply Hcd].
Qed.

(** A validation error is a domain exception and no repository error. *)
Lemma domain_exception_taxonomy_witness :
  issubclass ValidationError DomainException = true /\
  issubclass ValidationError RepositoryError = false.
Proof.
  destruct (domain_exception_taxonomy ValidationError RepositoryError)
    as (H1 & _ & H3).
  assert (Hv : ValidationError ∈ domain_exceptions)
    by (apply (bool_decide_eq_true_1 _); reflexivity).
  assert (Hr : RepositoryError ∈ domain_exceptions)
    by (apply (bool_decide_eq_true_1 _); reflexivity).
  split.
  - by apply H1.
  - apply H3; [exact Hv | exact Hr | discriminate | discriminate | discriminate].
Defined.

(** * Health checks *)

(** ** Dicts in insertion order *)

Lemma odict_set_fresh {V : Type} (k : list N) (v : V) (d : list (list N * V)) :
  k ∉ map fst d -> odict_set k v d = d ++ [(k, v)].
Proof.
  induction d as [|[k' v'] d IH]; intros Hk; simpl; [done|].
  simpl in Hk. apply not_elem_of_cons in Hk as [Hne Hk].
  rewrite decide_False by done. by rewrite IH.
Qed.

Lemma odict_set_keys {V : Type} (k : list N) (v : V) (d : list (list N * V)) :
  map fst (odict_set k v d)
  = if decide (k ∈ map fst d) then map fst d else map fst d ++ [k].
Proof.
  induction d as [|[k' v'] d IH]; cbn [odict_set map fst].
  { destruct (decide (k ∈ [])) as [H|H]; [by apply elem_of_nil in H | done]. }
  destruct (decide (k' = k)) as [->|Hne]; cbn [odict_set map fst].
  - rewrite decide_True by left. done.
  - rewrite IH. destruct (decide (k ∈ map fst d)) as [Hin|Hin].
    + rewrite decide_True by (by right). done.
    + rewrite decide_False; [done|].
      intros Hc. apply elem_of_cons in Hc as [->|Hc]; done.
Qed.

Lemma odict_set_NoDup {V : Type} (k : list N) (v : V) (d : list (list N * V)) :
  NoDup (map fst d) -> NoDup (map fst (odict_set k v d)).
Proof.
  intros Hd. rewrite odict_set_keys. case_decide; [done|].
  apply NoDup_app. split; [done|]. split; [|apply NoDup_singleton].
  intros x Hx Hx'. apply list_elem_of_singleton in Hx' as ->. done.
Qed.

Lemma odict_get_set {V : Type} (k k' : list N) (v : V) (d : list (list N * V)) :
  odict_get k' (odict_set k v d)
  = if decide (k = k') then Some v else odict_get k' d.
Proof.
  induction d as [|[k0 v0] d IH]; simpl.
  - by destruct (decide (k = k')).
  - destruct (decide (k0 = k)) as [->|Hne]; simpl.
    + by destruct (decide (k = k')).
    + rewrite IH. destruct (decide (k0 = k')) as [->|Hne'].
      * by rewrite decide_False by done.
      * done.
Qed.

Lemma odict_set_length {V : Type} (k : list N) (v : V) (d : list (list N * V)) :
  length (odict_set k v d)
  = if decide (k ∈ map fst d) then length d else S (length d).
Proof.
  rewrite <- !(length_map fst), odict_set_keys.
  case_decide; [done|]. rewrite length_app. simpl. lia.
Qed.

(** ** [check_health] *)

Lemma check_health_eval (isoformat : Z -> list N) (hc : HealthCheck.HealthCheck)
    (w : World) :
  HealthCheck.check_health isoformat (hc, w)
  = match HealthCheck.for_checks (HealthCheck.checks hc) [] HealthStatus.UP (ticked w) with
    | (Return r, w') =>
        (Return (HealthCheck.mkResponse (HealthCheck.service_name hc) (snd r)
                   (isoformat (now w) ++ py "Z") (fst r)),
         (HealthCheck.set_last_check_time (Some (now w)) hc, w'))
    | (Raise e, w') =>
        (Raise e, (HealthCheck.set_last_check_time (Some (now w)) hc, w'))
    end.
Proof.
  unfold HealthCheck.check_health, bind, in_world, assign, get_self, ret,
    datetime_utcnow. simpl.
  fold (ticked w). fold (now w).
  by destruct (HealthCheck.for_checks _ _ _ _) as [[r|e] w'].
Qed.

Lemma failed_check_reports_down (e : PyExc) :
  reports HealthStatus.DOWN (failed_check e).
Proof. apply lookup_insert_eq. Qed.

Lemma worse_failed_check (overall : list N) (e : PyExc) :
  worse overall (failed_check e) = HealthStatus.DOWN.
Proof.
  unfold worse. rewrite bool_decide_eq_true_2; [done|].
  apply failed_check_reports_down.
Qed.

(** The loop, read off the outcomes of the checks. *)
Lemma for_checks_outcomes
    (items : list (list N * Py World (gmap (list N) PyObject))) :
  forall (results : list (list N * gmap (list N) PyObject)) (overall : list N)
         (w : World),
    match HealthCheck.for_checks items results overall w with
    | (Return r, _) =>
        all_caught (check_outcomes items w) /\
        map fst (check_outcomes items w) = map fst items /\
        fst r = foldl (fun acc o => odict_set (fst o) (dependency_of (snd o)) acc)
                  results (check_outcomes items w) /\
        snd r = foldl worse overall
                  (map (fun o => dependency_of (snd o)) (check_outcomes items w))
    | (Raise e, _) =>
        exists pre name,
          check_outcomes items w = pre ++ [(name, Raise e)] /\
          isinstance e Exception = false /\ all_caught pre
    end.
Proof.
  induction items as [|[name f] items IH]; intros results overall w.
  - simpl. repeat split. constructor.
  - cbn [HealthCheck.for_checks check_outcomes].
    destruct (f w) as [[result|e] w1].
    + specialize (IH (odict_set name result results) (worse overall result) w1).
      change (if bool_decide (result !! py "status" = Some (PyStr HealthStatus.DOWN))
              then HealthStatus.DOWN
              else if bool_decide (result !! py "status"
                                   = Some (PyStr HealthStatus.DEGRADED))
                      && negb (bool_decide (overall = HealthStatus.DOWN))
                   then HealthStatus.DEGRADED else overall)
        with (worse overall result).
      destruct (HealthCheck.for_checks items _ _ w1) as [[r|e] w2].
      * destruct IH as (Hc & Hk & Hr & Ho).
        split; [by constructor|]. split; [simpl; by rewrite Hk|]. done.
      * destruct IH as (pre & n & E & He & Hpre).
        exists ((name, Return result) :: pre), n.
        split; [by rewrite E|]. split; [done|]. by constructor.
    + destruct (isinstance e Exception) eqn:Ee.
      * specialize (IH (odict_set name (failed_check e) results) HealthStatus.DOWN w1).
        fold (failed_check e).
        destruct (HealthCheck.for_checks items _ _ w1) as [[r|e'] w2].
        -- destruct IH as (Hc & Hk & Hr & Ho).
           split; [by constructor|]. split; [simpl; by rewrite Hk|].
           split; [done|]. simpl. by rewrite worse_failed_check.
        -- destruct IH as (pre & n & E & He & Hpre).
           exists ((name, Raise e) :: pre), n.
           split; [by rewrite E|]. split; [done|]. by constructor.
      * exists [], name. split; [done|]. split; [done|constructor].
Qed.

Lemma foldl_odict_set_fresh
    (os : list (list N * Outcome (gmap (list N) PyObject))) :
  forall results : list (list N * gmap (list N) PyObject),
    NoDup (map fst os) ->
    (forall k, k ∈ map fst os -> k ∉ map fst results) ->
    foldl (fun acc o => odict_set (fst o) (dependency_of (snd o)) acc) results os
    = results ++ map (fun o => (fst o, dependency_of (snd o))) os.
Proof.
  induction os as [|[k o] os IH]; intros results Hnd Hfresh; simpl.
  - by rewrite app_nil_r.
  - simpl in Hnd. apply NoDup_cons in Hnd as [Hk Hnd].
    rewrite odict_set_fresh by (apply Hfresh; left).
    rewrite IH; [by rewrite <- app_assoc | done |].
    intros k' Hk'. rewrite map_app. simpl.
    intros Hc. apply elem_of_app in Hc as [Hc|Hc].
    + by apply (Hfresh k'); [right|].
    + apply list_elem_of_singleton in Hc as ->. done.
Qed.

Lemma statuses_distinct :
  HealthStatus.UP <> HealthStatus.DOWN /\
  HealthStatus.UP <> HealthStatus.DEGRADED /\
  HealthStatus.DEGRADED <> HealthStatus.DOWN.
Proof. by vm_compute. Qed.

Lemma reports_one_status (dep : gmap (list N) PyObject) :
  reports HealthStatus.DOWN dep -> reports HealthStatus.DEGRADED dep -> False.
Proof. unfold reports. intros -> H. vm_compute in H. discriminate H. Qed.

(** The overall status is the worst the dependencies report. *)
Lemma foldl_worse_worst (deps : list (gmap (list N) PyObject)) :
  let overall := foldl worse HealthStatus.UP deps in
  (overall = HealthStatus.DOWN <-> Exists (reports HealthStatus.DOWN) deps) /\
  (overall = HealthStatus.DEGRADED <->
   ~ Exists (reports HealthStatus.DOWN) deps
   /\ Exists (reports HealthStatus.DEGRADED) deps) /\
  (overall = HealthStatus.UP <->
   ~ Exists (reports HealthStatus.DOWN) deps
   /\ ~ Exists (reports HealthStatus.DEGRADED) deps).
Proof.
  destruct statuses_distinct as (Hud & Hug & Hgd).
  induction deps as [|dep deps IH] using rev_ind; simpl.
  - rewrite !Exists_nil. repeat split; try tauto; try done.
  - rewrite foldl_app. simpl. rewrite !Exists_app, !Exists_cons, !Exists_nil.
    destruct IH as (IHd & IHg & IHu).
    set (ov := foldl worse HealthStatus.UP deps) in *.
    unfold worse. fold (reports HealthStatus.DOWN dep).
    fold (reports HealthStatus.DEGRADED dep).
    destruct (decide (reports HealthStatus.DOWN dep)) as [Hd|Hd].
    + rewrite bool_decide_eq_true_2 by done.
      pose proof (reports_one_status dep Hd).
      repeat split; try tauto; intros; try congruence.
    + rewrite (bool_decide_eq_false_2 _ Hd).
      destruct (decide (reports HealthStatus.DEGRADED dep)) as [Hg|Hg].
      * rewrite (bool_decide_eq_true_2 _ Hg).
        destruct (decide (ov = HealthStatus.DOWN)) as [Ho|Ho].
        -- rewrite (bool_decide_eq_true_2 _ Ho). simpl.
           repeat split; try tauto; intros; try congruence.
        -- rewrite (bool_decide_eq_false_2 _ Ho). simpl.
           repeat split; try tauto; intros; try congruence.
      * rewrite (bool_decide_eq_false_2 _ Hg). simpl. tauto.
Qed.

Lemma check_health_dependencies
    (items : list (list N * Py World (gmap (list N) PyObject))) (w : World) :
  NoDup (map fst items) ->
  map fst (check_outcomes items w) = map fst items ->
  foldl (fun acc o => odict_set (fst o) (dependency_of (snd o)) acc) []
    (check_outcomes items w)
  = map (fun o => (fst o, dependency_of (snd o))) (check_outcomes items w).
Proof.
  intros Hnd Hk. rewrite foldl_odict_set_fresh; [done| by rewrite Hk |].
  intros k _. apply not_elem_of_nil.
Qed.

(** X18.  The status [check_health] reports is the worst its dependencies
    report: it is "down" exactly when some dependency is reported down (a
    check that raised is reported down), "degraded" exactly when none is
    down and some is degraded, and "up" otherwise; a status a check
    invents counts as up.  (No two checks share a name: [checks] is a
    dict.) *)
Theorem check_health_status_is_worst (isoformat : Z -> list N)
    (hc : HealthCheck.HealthCheck) (w : World) (r : HealthCheck.Response)
    (st : HealthCheck.HealthCheck * World) :
  NoDup (map fst (HealthCheck.checks hc)) ->
  HealthCheck.check_health isoformat (hc, w) = (Return r, st) ->
  (HealthCheck.status r = HealthStatus.DOWN <->
   Exists (reports HealthStatus.DOWN) (map snd (HealthCheck.dependencies r))) /\
  (HealthCheck.status r = HealthStatus.DEGRADED <->
   ~ Exists (reports HealthStatus.DOWN) (map snd (HealthCheck.dependencies r))
   /\ Exists (reports HealthStatus.DEGRADED) (map snd (HealthCheck.dependencies r))) /\
  (HealthCheck.status r = HealthStatus.UP <->
   ~ Exists (reports HealthStatus.DOWN) (map snd (HealthCheck.dependencies r))
   /\ ~ Exists (reports HealthStatus.DEGRADED) (map snd (HealthCheck.dependencies r))).
Proof.
  intros Hnd E. rewrite check_health_eval in E.
  pose proof (for_checks_outcomes (HealthCheck.checks hc) [] HealthStatus.UP (ticked w))
    as H.
  destruct (HealthCheck.for_checks _ _ _ _) as [[[res ov]|e] w']; [|discriminate E].
  destruct H as (_ & Hk & Hr & Ho). simpl in Hr, Ho.
  injection E as <- _. simpl.
  rewrite Hr, Ho, (check_health_dependencies _ _ Hnd Hk), map_map. simpl.
  apply foldl_worse_worst.
Qed.

(** One check up and one degraded: the service is degraded. *)
Lemma check_health_status_is_worst_witness :
  exists r st,
    HealthCheck.check_health (fun _ => py "2023-11-14T22:13:20")
      (HealthCheck.mk (py "conversation-service")
         [(py "db", check_up); (py "broker", check_degraded)] None,
       ticking_world) = (Return r, st) /\
    HealthCheck.status r = HealthStatus.DEGRADED /\
    ~ Exists (reports HealthStatus.DOWN) (map snd (HealthCheck.dependencies r)).
Proof.
  eexists _, _. split; [reflexivity|].
  split; [reflexivity|].
  assert (Hnd : NoDup (map fst [(py "db", check_up); (py "broker", check_degraded)])).
  { apply (bool_decide_eq_true_1 _). reflexivity. }
  pose proof (check_health_status_is_worst (fun _ => py "2023-11-14T22:13:20")
                (HealthCheck.mk (py "conversation-service")
                   [(py "db", check_up); (py "broker", check_degraded)] None)
                ticking_world _ _ Hnd eq_refl) as (_ & Hg & _).
  exact (proj1 (proj1 Hg eq_refl)).
Defined.

(** X19.  When no check raises anything but an [Exception],
    [check_health] returns: it names the service, stamps the reading of
    the clock taken before the first check (and keeps it as
    [last_check_time]), and lists every registered check once, in
    registration order, with the dict the check returned or, for a check
    that raised, with status "down" and the error's text. *)
Theorem check_health_reports_every_check (isoformat : Z -> list N)
    (hc : HealthCheck.HealthCheck) (w : World) :
  NoDup (map fst (HealthCheck.checks hc)) ->
  all_caught (check_outcomes (HealthCheck.checks hc) (ticked w)) ->
  exists r w',
    HealthCheck.check_health isoformat (hc, w)
    = (Return r, (HealthCheck.set_last_check_time (Some (now w)) hc, w')) /\
    HealthCheck.service r = HealthCheck.service_name hc /\
    HealthCheck.timestamp r = isoformat (now w) ++ py "Z" /\
    map fst (HealthCheck.dependencies r) = map fst (HealthCheck.checks hc) /\
    HealthCheck.dependencies r
    = map (fun o => (fst o, dependency_of (snd o)))
          (check_outcomes (HealthCheck.checks hc) (ticked w)).
Proof.
  intros Hnd Hall. rewrite check_health_eval.
  pose proof (for_checks_outcomes (HealthCheck.checks hc) [] HealthStatus.UP (ticked w))
    as H.
  destruct (HealthCheck.for_checks _ _ _ _) as [[[res ov]|e] w'].
  - destruct H as (_ & Hk & Hr & Ho). simpl in Hr, Ho.
    eexists _, _. split; [reflexivity|]. simpl.
    rewrite Hr, (check_health_dependencies _ _ Hnd Hk).
    repeat split. by rewrite map_map.
  - destruct H as (pre & name & E & He & _). exfalso.
    rewrite E in Hall. apply Forall_app in Hall as [_ Hall].
    apply Forall_cons in Hall as [Hall _]. simpl in Hall. congruence.
Qed.

(** One check up and one that raises. *)
Lemma check_health_reports_every_check_witness :
  exists r w',
    HealthCheck.check_health (fun _ => py "2023-11-14T22:13:20")
      (HealthCheck.mk (py "conversation-service")
         [(py "db", check_up); (py "broker", check_raising)] None,
       ticking_world)
    = (Return r,
       (HealthCheck.set_last_check_time (Some (now ticking_world))
          (HealthCheck.mk (py "conversation-service")
             [(py "db", check_up); (py "broker", check_raising)] None), w')) /\
    map fst (HealthCheck.dependencies r) = [py "db"; py "broker"].
Proof.
  destruct (check_health_reports_every_check (fun _ => py "2023-11-14T22:13:20")
              (HealthCheck.mk (py "conversation-service")
                 [(py "db", check_up); (py "broker", check_raising)] None)
              ticking_world) as (r & w' & E & _ & _ & Hk & _).
  - apply (bool_decide_eq_true_1 _). reflexivity.
  - repeat constructor.
  - by exists r, w'.
Defined.

(** The loop over a list of checks that ends with the checks [rest]: once
    the checks before them are through, it goes on with [rest] from the
    results, the status and the world they left. *)
Lemma for_checks_app
    (pre rest : list (list N * Py World (gmap (list N) PyObject))) :
  forall (results : list (list N * gmap (list N) PyObject)) (overall : list N)
         (w w1 : World) (r : list (list N * gmap (list N) PyObject) * list N),
    HealthCheck.for_checks pre results overall w = (Return r, w1) ->
    HealthCheck.for_checks (pre ++ rest) results overall w
    = HealthCheck.for_checks rest (fst r) (snd r) w1.
Proof.
  induction pre as [|[name f] pre IH]; intros results overall w w1 r E.
  - simpl in E. unfold ret in E. by injection E as <- <-.
  - simpl in *. destruct (f w) as [[result|e] w'].
    + by apply IH.
    + destruct (isinstance e Exception); [by apply IH | discriminate E].
Qed.

(** X20.  An exception of a check that is no [Exception] is not caught:
    once the checks registered before it are through, [check_health]
    raises it and leaves the world as that check left it, whatever checks
    are registered after it: they are not run.  [last_check_time] is set
    all the same. *)
Theorem check_health_propagates (isoformat : Z -> list N)
    (hc : HealthCheck.HealthCheck) (w w1 w2 : World)
    (pre post : list (list N * Py World (gmap (list N) PyObject)))
    (name : list N) (f : Py World (gmap (list N) PyObject))
    (r : list (list N * gmap (list N) PyObject) * list N) (e : PyExc) :
  HealthCheck.checks hc = pre ++ (name, f) :: post ->
  HealthCheck.for_checks pre [] HealthStatus.UP (ticked w) = (Return r, w1) ->
  f w1 = (Raise e, w2) ->
  isinstance e Exception = false ->
  HealthCheck.check_health isoformat (hc, w)
  = (Raise e, (HealthCheck.set_last_check_time (Some (now w)) hc, w2)).
Proof.
  intros Hc Hpre Hf He. rewrite check_health_eval, Hc.
  rewrite (for_checks_app pre ((name, f) :: post) _ _ _ _ _ Hpre).
  cbn [HealthCheck.for_checks]. by rewrite Hf, He.
Qed.

(** A check cancelled after one check ran and before one that would read
    the clock: the clock was read once, by [check_health] itself. *)
Lemma check_health_propagates_witness :
  HealthCheck.check_health (fun _ => py "2023-11-14T22:13:20")
    (HealthCheck.mk (py "conversation-service")
       [(py "cache", check_up); (py "db", raise BaseException "cancelled");
        (py "broker", check_reading_clock)] None,
     ticking_world)
  = (Raise (mkExc BaseException "cancelled"),
     (HealthCheck.set_last_check_time (Some (now ticking_world))
        (HealthCheck.mk (py "conversation-service")
           [(py "cache", check_up); (py "db", raise BaseException "cancelled");
            (py "broker", check_reading_clock)] None),
      ticked ticking_world)).
Proof.
  apply (check_health_propagates (fun _ => py "2023-11-14T22:13:20")
           (HealthCheck.mk (py "conversation-service")
              [(py "cache", check_up); (py "db", raise BaseException "cancelled");
               (py "broker", check_reading_clock)] None)
           ticking_world (ticked ticking_world) (ticked ticking_world)
           [(py "cache", check_up)] [(py "broker", check_reading_clock)]
           (py "db") (raise BaseException "cancelled")
           ([(py "cache", <[py "status" := PyStr HealthStatus.UP]> ∅)], HealthStatus.UP)
           (mkExc BaseException "cancelled")).
  - reflexivity.
  - reflexivity.
  - reflexivity.
  - reflexivity.
Defined.

(** ** [register_check] *)

Lemma register_check_eval (name : list N)
    (f : Py World (gmap (list N) PyObject)) (hc : HealthCheck.HealthCheck)
    (w : World) :
  HealthCheck.register_check name f (hc, w)
  = (Return tt,
     (HealthCheck.set_checks (odict_set name f (HealthCheck.checks hc)) hc, w)).
Proof. reflexivity. Qed.

(** X21.  [register_check] is an upsert by name: afterwards the name maps
    to the new check and every other name to the check it had; a name
    already registered keeps its place in the order of the checks and the
    number of checks stays, a new name goes last; no name is ever
    registered twice. *)
Theorem register_check_upsert (name : list N)
    (f : Py World (gmap (list N) PyObject)) (hc : HealthCheck.HealthCheck)
    (w : World) :
  NoDup (map fst (HealthCheck.checks hc)) ->
  exists hc',
    HealthCheck.register_check name f (hc, w) = (Return tt, (hc', w)) /\
    NoDup (map fst (HealthCheck.checks hc')) /\
    odict_get name (HealthCheck.checks hc') = Some f /\
    (forall n, n <> name ->
               odict_get n (HealthCheck.checks hc') = odict_get n (HealthCheck.checks hc)) /\
    (name ∈ map fst (HealthCheck.checks hc) ->
     map fst (HealthCheck.checks hc') = map fst (HealthCheck.checks hc)) /\
    (name ∉ map fst (HealthCheck.checks hc) ->
     map fst (HealthCheck.checks hc') = map fst (HealthCheck.checks hc) ++ [name]) /\
    HealthCheck.service_name hc' = HealthCheck.service_name hc /\
    HealthCheck.last_check_time hc' = HealthCheck.last_check_time hc.
Proof.
  intros Hnd. rewrite register_check_eval. eexists. split; [reflexivity|]. simpl.
  split; [by apply odict_set_NoDup|].
  split; [rewrite odict_get_set; by rewrite decide_True|].
  split; [intros n Hn; rewrite odict_get_set; by rewrite decide_False|].
  rewrite odict_set_keys.
  split; [intros Hin; by rewrite decide_True|].
  split; [intros Hin; by rewrite decide_False|]. done.
Qed.

(** A check registered again under its name. *)
Lemma register_check_upsert_witness :
  exists hc',
    HealthCheck.register_check (py "db") check_degraded
      (HealthCheck.mk (py "conversation-service")
         [(py "db", check_up); (py "broker", check_up)] None, ticking_world)
    = (Return tt, (hc', ticking_world)) /\
    odict_get (py "db") (HealthCheck.checks hc') = Some check_degraded /\
    map fst (HealthCheck.checks hc') = [py "db"; py "broker"].
Proof.
  destruct (register_check_upsert (py "db") check_degraded
              (HealthCheck.mk (py "conversation-service")
                 [(py "db", check_up); (py "broker", check_up)] None)
              ticking_world) as (hc' & E & _ & Hg & _ & Hk & _).
  - apply (bool_decide_eq_true_1 _). reflexivity.
  - exists hc'. split; [exact E|]. split; [exact Hg|].
    apply Hk. apply (bool_decide_eq_true_1 _). reflexivity.
Defined.

(** X22.  A [HealthCheck] built by calls of [register_check] has no two
    checks of one name, whatever the names registered, and keeps for each
    name the check registered last under it. *)
Theorem registered_checks_unique (service_name : list N)
    (regs : list (list N * Py World (gmap (list N) PyObject))) (w : World) :
  NoDup (map fst (HealthCheck.checks (registered service_name regs w))) /\
  (forall pre name f post,
      regs = pre ++ (name, f) :: post -> name ∉ map fst post ->
      odict_get name (HealthCheck.checks (registered service_name regs w)) = Some f) /\
  (forall name, name ∈ map fst (HealthCheck.checks (registered service_name regs w))
                <-> name ∈ map fst regs).
Proof.
  unfold registered.
  assert (Hgen : forall regs hc,
    NoDup (map fst (HealthCheck.checks hc)) ->
    let hc' := fst (snd (call_each (fun r => HealthCheck.register_check (fst r) (snd r))
                           regs (hc, w))) in
    NoDup (map fst (HealthCheck.checks hc')) /\
    (forall pre name f post,
        regs = pre ++ (name, f) :: post -> name ∉ map fst post ->
        odict_get name (HealthCheck.checks hc') = Some f) /\
    (forall name, name ∉ map fst regs ->
                  odict_get name (HealthCheck.checks hc')
                  = odict_get name (HealthCheck.checks hc)) /\
    (forall name, name ∈ map fst (HealthCheck.checks hc')
                  <-> name ∈ map fst (HealthCheck.checks hc) \/ name ∈ map fst regs)).
  { clear regs. induction regs as [|[n g] regs IH]; intros hc Hnd.
    - simpl. split; [done|]. split; [by intros [|]|]. split; [done|].
      intros name. rewrite elem_of_nil. tauto.
    - rewrite call_each_cons, register_check_eval. cbn [fst snd].
      set (hc1 := HealthCheck.set_checks _ hc).
      assert (Hnd1 : NoDup (map fst (HealthCheck.checks hc1)))
        by (by apply odict_set_NoDup).
      destruct (IH hc1 Hnd1) as (H1 & H2 & H3 & H4).
      split; [exact H1|]. split; [|split].
      + intros pre name f post E Hpost. destruct pre as [|p pre].
        * injection E as -> -> ->. rewrite (H3 name Hpost). subst hc1. simpl.
          rewrite odict_get_set. by rewrite decide_True.
        * injection E as _ E. by apply (H2 pre name f post).
      + intros name Hname. simpl in Hname.
        apply not_elem_of_cons in Hname as [Hne Hname].
        rewrite (H3 name Hname). subst hc1. simpl.
        rewrite odict_get_set. by rewrite decide_False.
      + intros name. rewrite H4. subst hc1. simpl. rewrite odict_set_keys.
        rewrite elem_of_cons.
        destruct (decide (n ∈ map fst (HealthCheck.checks hc))) as [Hin|Hin].
        * split; [tauto|]. intros [?|[->|?]]; tauto.
        * rewrite elem_of_app, list_elem_of_singleton. tauto. }
  destruct (Hgen regs (HealthCheck.__init__ service_name)) as (H1 & H2 & _ & H4).
  { simpl. constructor. }
  split; [exact H1|]. split; [exact H2|].
  intros name. rewrite H4. simpl. rewrite elem_of_nil. tauto.
Qed.

(** A name registered twice. *)
Lemma registered_checks_unique_witness :
  odict_get (py "db")
    (HealthCheck.checks
       (registered (py "conversation-service")
          [(py "db", check_up); (py "broker", check_up); (py "db", check_degraded)]
          ticking_world))
  = Some check_degraded.
Proof.
  apply (proj1 (proj2 (registered_checks_unique (py "conversation-service")
                         [(py "db", check_up); (py "broker", check_up);
                          (py "db", check_degraded)] ticking_world))
           [(py "db", check_up); (py "broker", check_up)] (py "db")
           check_degraded []).
  - reflexivity.
  - apply not_elem_of_nil.
Defined.

(** * The docstring visitor *)

(** Induction on a tree, with the property at hand for every child. *)
Lemma ast_induction (P : ast -> Prop) :
  (forall cls name docstring children,
      Forall P children -> P (Node cls name docstring children)) ->
  forall t, P t.
Proof.
  intros H. fix IH 1. intros [cls name docstring children].
  apply H. induction children as [|c children IHc]; constructor.
  - apply IH.
  - exact IHc.
Qed.

Lemma visit_eq (cls : NodeClass) (name : list N) (docstring : option (list N))
    (children : list ast) (self : DocstringVisitor.DocstringVisitor) :
  DocstringVisitor.visit (Node cls name docstring children) self
  = match cls with
    | NModule =>
        DocstringVisitor.generic_visit children
          (DocstringVisitor.count Emodule docstring (py "module") self)
    | NClassDef =>
        DocstringVisitor.set_current_class
          (DocstringVisitor.current_class
             (DocstringVisitor.count Eclass docstring name self))
          (DocstringVisitor.generic_visit children
             (DocstringVisitor.set_current_class (Some name)
                (DocstringVisitor.count Eclass docstring name self)))
    | NFunctionDef =>
        if DocstringVisitor.truthy_opt (DocstringVisitor.current_class self)
        then DocstringVisitor.generic_visit children
               (DocstringVisitor.count Emethod docstring
                  (default [] (DocstringVisitor.current_class self) ++ py "." ++ name)
                  self)
        else DocstringVisitor.generic_visit children
               (DocstringVisitor.count Efunction docstring name self)
    | NAsyncFunctionDef | NOther => DocstringVisitor.generic_visit children self
    end.
Proof.
  assert (Hg : forall l v,
             (fix generic_visit (l : list ast) (self : DocstringVisitor.DocstringVisitor) :=
                match l with
                | [] => self
                | child :: l' => generic_visit l' (DocstringVisitor.visit child self)
                end) l v = DocstringVisitor.generic_visit l v).
  { induction l as [|c l IH]; intros v; [done|]. simpl. by rewrite IH. }
  destruct cls; simpl; rewrite ?Hg; done.
Qed.

(** What every visit of the children keeps, [generic_visit] keeps. *)
Lemma generic_visit_invariant (P : DocstringVisitor.DocstringVisitor -> Prop)
    (children : list ast) :
  Forall (fun c => forall v, P v -> P (DocstringVisitor.visit c v)) children ->
  forall v, P v -> P (DocstringVisitor.generic_visit children v).
Proof.
  unfold DocstringVisitor.generic_visit.
  induction 1 as [|c children Hc _ IH]; intros v Hv; [done|].
  simpl. apply IH. by apply Hc.
Qed.

Lemma count_current_class ty docstring label v :
  DocstringVisitor.current_class (DocstringVisitor.count ty docstring label v)
  = DocstringVisitor.current_class v.
Proof. unfold DocstringVisitor.count. by destruct (DocstringVisitor.truthy_opt _). Qed.

Lemma count_consistent ty docstring label v :
  consistent v -> consistent (DocstringVisitor.count ty docstring label v).
Proof.
  intros Hv ty'. destruct (Hv ty') as [H1 H2].
  unfold DocstringVisitor.count.
  destruct (DocstringVisitor.truthy_opt docstring); simpl;
    destruct (decide (ty' = ty)); simpl; rewrite ?length_app; simpl; lia.
Qed.

(** The visit of a tree leaves [current_class] as it found it. *)
Lemma visit_current_class (t : ast) :
  forall v, DocstringVisitor.current_class (DocstringVisitor.visit t v)
            = DocstringVisitor.current_class v.
Proof.
  induction t as [cls name docstring children IH] using ast_induction.
  intros v. rewrite visit_eq.
  assert (Hg : forall v0,
             DocstringVisitor.current_class (DocstringVisitor.generic_visit children v0)
             = DocstringVisitor.current_class v0).
  { intros v0.
    apply (generic_visit_invariant
             (fun v' => DocstringVisitor.current_class v'
                        = DocstringVisitor.current_class v0)); [|done].
    eapply Forall_impl; [exact IH|]. intros c Hc v' Hv'. simpl in *.
    by rewrite Hc. }
  destruct cls; rewrite ?Hg, ?count_current_class; try done.
  destruct (DocstringVisitor.truthy_opt _); by rewrite Hg, count_current_class.
Qed.

(** X23.  The counts the visitor keeps agree with one another: for each
    element type, on every tree, [documented <= total] (so a coverage is
    never above 100%), and the names listed as undocumented are as many as
    [total - documented]. *)
Theorem docstring_counts_consistent (tree : ast) (ty : ElementType) :
  (DocstringVisitor.documented
     (DocstringVisitor.stats (DocstringVisitor.analyze tree) ty)
   <= DocstringVisitor.total
        (DocstringVisitor.stats (DocstringVisitor.analyze tree) ty))%nat /\
  (length (DocstringVisitor.undocumented (DocstringVisitor.analyze tree) ty)
   + DocstringVisitor.documented
       (DocstringVisitor.stats (DocstringVisitor.analyze tree) ty)
   = DocstringVisitor.total
       (DocstringVisitor.stats (DocstringVisitor.analyze tree) ty))%nat.
Proof.
  revert ty. change (consistent (DocstringVisitor.analyze tree)).
  unfold DocstringVisitor.analyze.
  assert (H0 : consistent DocstringVisitor.__init__) by (intros ty; simpl; lia).
  revert H0. generalize DocstringVisitor.__init__.
  induction tree as [cls name docstring children IH] using ast_induction.
  intros v Hv. rewrite visit_eq.
  assert (Hg : forall v0, consistent v0 ->
                          consistent (DocstringVisitor.generic_visit children v0)).
  { intros v0. by apply generic_visit_invariant. }
  destruct cls.
  - by apply Hg, count_consistent.
  - intros ty. apply (Hg (DocstringVisitor.set_current_class (Some name)
                            (DocstringVisitor.count Eclass docstring name v))).
    intros ty'. apply (count_consistent Eclass docstring name v Hv ty').
  - destruct (DocstringVisitor.truthy_opt _); by apply Hg, count_consistent.
  - by apply Hg.
  - by apply Hg.
Qed.

Lemma count_nodes_eq (p : NodeClass -> bool) cls name docstring children :
  count_nodes p (Node cls name docstring children)
  = ((if p cls then 1 else 0) + sum_list (map (count_nodes p) children))%nat.
Proof.
  simpl. f_equal. induction children as [|c children IH]; [done|].
  simpl. by rewrite IH.
Qed.

Lemma classes_named_eq cls name docstring children :
  classes_named (Node cls name docstring children)
  <-> (cls = NClassDef -> name <> []) /\ Forall classes_named children.
Proof.
  simpl. apply and_iff_compat_l.
  induction children as [|c children IH]; [by split; [constructor|]|].
  rewrite Forall_cons, IH. done.
Qed.

(** A quantity that each visit of a child raises by [f child] is raised by
    the sum over the children, under an invariant the visits keep. *)
Lemma generic_visit_sum (I : DocstringVisitor.DocstringVisitor -> Prop)
    (mu : DocstringVisitor.DocstringVisitor -> nat) (f : ast -> nat)
    (children : list ast) :
  Forall (fun c => forall v, I v ->
                             I (DocstringVisitor.visit c v) /\
                             mu (DocstringVisitor.visit c v) = (mu v + f c)%nat)
         children ->
  forall v, I v ->
            I (DocstringVisitor.generic_visit children v) /\
            mu (DocstringVisitor.generic_visit children v)
            = (mu v + sum_list (map f children))%nat.
Proof.
  unfold DocstringVisitor.generic_visit.
  induction 1 as [|c children Hc _ IH]; intros v Hv; simpl.
  - split; [done | lia].
  - destruct (Hc v Hv) as [Hi Hm]. destruct (IH _ Hi) as [Hi' Hm'].
    split; [done|]. rewrite Hm', Hm. lia.
Qed.

Lemma count_total ty ty' docstring label v :
  DocstringVisitor.total
    (DocstringVisitor.stats (DocstringVisitor.count ty docstring label v) ty')
  = (DocstringVisitor.total (DocstringVisitor.stats v ty')
     + (if decide (ty' = ty) then 1 else 0))%nat.
Proof.
  unfold DocstringVisitor.count.
  destruct (DocstringVisitor.truthy_opt docstring); simpl;
    destruct (decide (ty' = ty)); simpl; lia.
Qed.

Lemma count_other ty ty' docstring label v :
  ty' <> ty ->
  DocstringVisitor.stats (DocstringVisitor.count ty docstring label v) ty'
  = DocstringVisitor.stats v ty' /\
  DocstringVisitor.undocumented (DocstringVisitor.count ty docstring label v) ty'
  = DocstringVisitor.undocumented v ty'.
Proof.
  intros Hne. unfold DocstringVisitor.count.
  destruct (DocstringVisitor.truthy_opt docstring); simpl;
    by rewrite ?decide_False by done.
Qed.

(** The totals after the visit of a tree, from any visitor. *)
Lemma visit_totals (t : ast) :
  forall v,
    DocstringVisitor.total (DocstringVisitor.stats (DocstringVisitor.visit t v) Emodule)
    = (DocstringVisitor.total (DocstringVisitor.stats v Emodule)
       + count_nodes (fun c => bool_decide (c = NModule)) t)%nat /\
    DocstringVisitor.total (DocstringVisitor.stats (DocstringVisitor.visit t v) Eclass)
    = (DocstringVisitor.total (DocstringVisitor.stats v Eclass)
       + count_nodes (fun c => bool_decide (c = NClassDef)) t)%nat /\
    (DocstringVisitor.total (DocstringVisitor.stats (DocstringVisitor.visit t v) Efunction)
     + DocstringVisitor.total (DocstringVisitor.stats (DocstringVisitor.visit t v) Emethod)
     = DocstringVisitor.total (DocstringVisitor.stats v Efunction)
       + DocstringVisitor.total (DocstringVisitor.stats v Emethod)
       + count_nodes (fun c => bool_decide (c = NFunctionDef)) t)%nat.
Proof.
  induction t as [cls name docstring children IH] using ast_induction.
  intros v. rewrite visit_eq, !count_nodes_eq.
  assert (Hg : forall v0,
    DocstringVisitor.total
      (DocstringVisitor.stats (DocstringVisitor.generic_visit children v0) Emodule)
    = (DocstringVisitor.total (DocstringVisitor.stats v0 Emodule)
       + sum_list (map (count_nodes (fun c => bool_decide (c = NModule))) children))%nat /\
    DocstringVisitor.total
      (DocstringVisitor.stats (DocstringVisitor.generic_visit children v0) Eclass)
    = (DocstringVisitor.total (DocstringVisitor.stats v0 Eclass)
       + sum_list (map (count_nodes (fun c => bool_decide (c = NClassDef))) children))%nat /\
    (DocstringVisitor.total
       (DocstringVisitor.stats (DocstringVisitor.generic_visit children v0) Efunction)
     + DocstringVisitor.total
         (DocstringVisitor.stats (DocstringVisitor.generic_visit children v0) Emethod)
     = DocstringVisitor.total (DocstringVisitor.stats v0 Efunction)
       + DocstringVisitor.total (DocstringVisitor.stats v0 Emethod)
       + sum_list (map (count_nodes (fun c => bool_decide (c = NFunctionDef))) children))%nat).
  { intros v0. split; [|split].
    - apply (generic_visit_sum (fun _ => True)
               (fun v' => DocstringVisitor.total (DocstringVisitor.stats v' Emodule)));
        [|done].
      eapply Forall_impl; [exact IH|]. intros c Hc v' _. split; [done|]. apply Hc.
    - apply (generic_visit_sum (fun _ => True)
               (fun v' => DocstringVisitor.total (DocstringVisitor.stats v' Eclass)));
        [|done].
      eapply Forall_impl; [exact IH|]. intros c Hc v' _. split; [done|]. apply Hc.
    - apply (generic_visit_sum (fun _ => True)
               (fun v' => (DocstringVisitor.total (DocstringVisitor.stats v' Efunction)
                           + DocstringVisitor.total (DocstringVisitor.stats v' Emethod))%nat));
        [|done].
      eapply Forall_impl; [exact IH|]. intros c Hc v' _. split; [done|]. apply Hc. }
  destruct cls.
  - destruct (Hg (DocstringVisitor.count Emodule docstring (py "module") v))
      as (H1 & H2 & H3).
    rewrite H1, H2, H3, !count_total. simpl. lia.
  - destruct (Hg (DocstringVisitor.set_current_class (Some name)
                    (DocstringVisitor.count Eclass docstring name v)))
      as (H1 & H2 & H3).
    cbn [DocstringVisitor.set_current_class DocstringVisitor.stats] in *.
    rewrite H1, H2, H3, !count_total. simpl. lia.
  - destruct (DocstringVisitor.truthy_opt _);
      match goal with
      | |- context [DocstringVisitor.generic_visit children ?v0] =>
          destruct (Hg v0) as (H1 & H2 & H3)
      end; rewrite H1, H2, H3, !count_total; simpl; lia.
  - destruct (Hg v) as (H1 & H2 & H3). rewrite H1, H2, H3. simpl. lia.
  - destruct (Hg v) as (H1 & H2 & H3). rewrite H1, H2, H3. simpl. lia.
Qed.

(** X24.  The totals are exact counts of nodes: one module per [Module]
    node, one class per [ClassDef] node, and every [FunctionDef] node is
    counted once, as a function or as a method.  An [async def] is counted
    as neither, though the definitions inside it are. *)
Theorem docstring_totals_count_nodes (tree : ast) :
  DocstringVisitor.total
    (DocstringVisitor.stats (DocstringVisitor.analyze tree) Emodule)
  = count_nodes (fun c => bool_decide (c = NModule)) tree /\
  DocstringVisitor.total
    (DocstringVisitor.stats (DocstringVisitor.analyze tree) Eclass)
  = count_nodes (fun c => bool_decide (c = NClassDef)) tree /\
  (DocstringVisitor.total
     (DocstringVisitor.stats (DocstringVisitor.analyze tree) Efunction)
   + DocstringVisitor.total
       (DocstringVisitor.stats (DocstringVisitor.analyze tree) Emethod))%nat
  = count_nodes (fun c => bool_decide (c = NFunctionDef)) tree.
Proof.
  unfold DocstringVisitor.analyze.
  destruct (visit_totals tree DocstringVisitor.__init__) as (H1 & H2 & H3).
  rewrite H1, H2, H3. done.
Qed.

(** Below a class, every definition is a method. *)
Lemma visit_in_class (t : ast) :
  forall v,
    classes_named t ->
    DocstringVisitor.truthy_opt (DocstringVisitor.current_class v) = true ->
    DocstringVisitor.stats (DocstringVisitor.visit t v) Efunction
    = DocstringVisitor.stats v Efunction /\
    DocstringVisitor.undocumented (DocstringVisitor.visit t v) Efunction
    = DocstringVisitor.undocumented v Efunction /\
    DocstringVisitor.total (DocstringVisitor.stats (DocstringVisitor.visit t v) Emethod)
    = (DocstringVisitor.total (DocstringVisitor.stats v Emethod)
       + count_nodes (fun c => bool_decide (c = NFunctionDef)) t)%nat.
Proof.
  induction t as [cls name docstring children IH] using ast_induction.
  intros v Hn Hv. apply classes_named_eq in Hn as [Hname Hch].
  rewrite visit_eq, count_nodes_eq.
  assert (Hg : forall v0,
    DocstringVisitor.truthy_opt (DocstringVisitor.current_class v0) = true ->
    DocstringVisitor.stats (DocstringVisitor.generic_visit children v0) Efunction
    = DocstringVisitor.stats v0 Efunction /\
    DocstringVisitor.undocumented (DocstringVisitor.generic_visit children v0) Efunction
    = DocstringVisitor.undocumented v0 Efunction /\
    DocstringVisitor.total
      (DocstringVisitor.stats (DocstringVisitor.generic_visit children v0) Emethod)
    = (DocstringVisitor.total (DocstringVisitor.stats v0 Emethod)
       + sum_list (map (count_nodes (fun c => bool_decide (c = NFunctionDef)))
                       children))%nat).
  { intros v0 Hv0.
    destruct (generic_visit_sum
      (fun v' => DocstringVisitor.truthy_opt (DocstringVisitor.current_class v') = true /\
                 DocstringVisitor.stats v' Efunction = DocstringVisitor.stats v0 Efunction /\
                 DocstringVisitor.undocumented v' Efunction
                 = DocstringVisitor.undocumented v0 Efunction)
      (fun v' => DocstringVisitor.total (DocstringVisitor.stats v' Emethod))
      (count_nodes (fun c => bool_decide (c = NFunctionDef))) children)
      with (v := v0) as [(_ & H1 & H2) H3]; [|done|done].
    rewrite Forall_forall in IH, Hch. apply Forall_forall. intros c Hc v' (Hi1 & Hi2 & Hi3).
    destruct (IH c Hc v' (Hch c Hc) Hi1) as (Hs & Hu & Hm).
    split; [|exact Hm]. rewrite visit_current_class.
    split; [exact Hi1|]. split; congruence. }
  destruct cls.
  - destruct (Hg (DocstringVisitor.count Emodule docstring (py "module") v))
      as (H1 & H2 & H3); [by rewrite count_current_class|].
    destruct (count_other Emodule Efunction docstring (py "module") v) as [E1 E2];
      [done|].
    rewrite H1, H2, H3, count_total, E1, E2. simpl. split; [done|]. split; [done|lia].
  - destruct (Hg (DocstringVisitor.set_current_class (Some name)
                    (DocstringVisitor.count Eclass docstring name v)))
      as (H1 & H2 & H3).
    { simpl. specialize (Hname eq_refl). by destruct name. }
    destruct (count_other Eclass Efunction docstring name v) as [E1 E2]; [done|].
    cbn [DocstringVisitor.set_current_class DocstringVisitor.stats
           DocstringVisitor.undocumented] in *.
    rewrite H1, H2, H3, count_total, E1, E2. simpl. split; [done|]. split; [done|lia].
  - rewrite Hv.
    destruct (Hg (DocstringVisitor.count Emethod docstring
                    (default [] (DocstringVisitor.current_class v) ++ py "." ++ name) v))
      as (H1 & H2 & H3); [by rewrite count_current_class|].
    destruct (count_other Emethod Efunction docstring
                (default [] (DocstringVisitor.current_class v) ++ py "." ++ name) v)
      as [E1 E2]; [done|].
    rewrite H1, H2, H3, count_total, E1, E2. simpl. split; [done|]. split; [done|lia].
  - destruct (Hg v Hv) as (H1 & H2 & H3). rewrite H1, H2, H3. simpl.
    split; [done|]. split; [done|lia].
  - destruct (Hg v Hv) as (H1 & H2 & H3). rewrite H1, H2, H3. simpl.
    split; [done|]. split; [done|lia].
Qed.

(** X25.  Below a class, every [def] counts as a method, however deep:
    the visit of a class definition adds nothing to the functions and
    their undocumented names, adds as many methods as the class has
    [FunctionDef] nodes below it (the closures inside its methods too),
    and leaves [current_class] as it was, so that what follows the class
    is classified as if the class were not there. *)
Theorem defs_below_a_class_are_methods (name : list N)
    (docstring : option (list N)) (children : list ast)
    (v : DocstringVisitor.DocstringVisitor) :
  name <> [] -> Forall classes_named children ->
  DocstringVisitor.stats
    (DocstringVisitor.visit (Node NClassDef name docstring children) v) Efunction
  = DocstringVisitor.stats v Efunction /\
  DocstringVisitor.undocumented
    (DocstringVisitor.visit (Node NClassDef name docstring children) v) Efunction
  = DocstringVisitor.undocumented v Efunction /\
  DocstringVisitor.total
    (DocstringVisitor.stats
       (DocstringVisitor.visit (Node NClassDef name docstring children) v) Emethod)
  = (DocstringVisitor.total (DocstringVisitor.stats v Emethod)
     + sum_list (map (count_nodes (fun c => bool_decide (c = NFunctionDef))) children))%nat /\
  DocstringVisitor.current_class
    (DocstringVisitor.visit (Node NClassDef name docstring children) v)
  = DocstringVisitor.current_class v.
Proof.
  intros Hname Hch. split; [|split; [|split]]; [| | |apply visit_current_class].
  all: rewrite visit_eq;
    cbn [DocstringVisitor.set_current_class DocstringVisitor.stats
           DocstringVisitor.undocumented].
  all: assert (Hcls : classes_named (Node NOther [] None children))
         by (apply classes_named_eq; by split).
  all: assert (Hcc : DocstringVisitor.truthy_opt
                       (DocstringVisitor.current_class
                          (DocstringVisitor.set_current_class (Some name)
                             (DocstringVisitor.count Eclass docstring name v))) = true)
         by (simpl; by destruct name).
  all: destruct (visit_in_class (Node NOther [] None children) _ Hcls Hcc)
         as (H1 & H2 & H3); rewrite visit_eq in H1, H2, H3;
         rewrite count_nodes_eq in H3.
  all: destruct (count_other Eclass Efunction docstring name v) as [E1 E2]; [done|].
  - rewrite H1. exact E1.
  - rewrite H2. exact E2.
  - rewrite H3. cbn [DocstringVisitor.set_current_class DocstringVisitor.stats].
    rewrite count_total.
    generalize (sum_list (map (count_nodes (fun c => bool_decide (c = NFunctionDef)))
                              children)).
    intros n. simpl. lia.
Qed.

(** The class of the sample module: two methods and a closure. *)
Lemma defs_below_a_class_are_methods_witness :
  DocstringVisitor.total
    (DocstringVisitor.stats
       (DocstringVisitor.visit
          (Node NClassDef (py "Visitor") (Some (py "A class."))
             [ Node NFunctionDef (py "visit") (Some (py "Visit.")) [];
               Node NFunctionDef (py "helper") None
                 [ Node NFunctionDef (py "inner") None [] ] ])
          DocstringVisitor.__init__) Emethod)
  = 3%nat.
Proof.
  refine (proj1 (proj2 (proj2
    (defs_below_a_class_are_methods (py "Visitor") (Some (py "A class."))
       [ Node NFunctionDef (py "visit") (Some (py "Visit.")) [];
         Node NFunctionDef (py "helper") None
           [ Node NFunctionDef (py "inner") None [] ] ]
       DocstringVisitor.__init__ _ _)))).
  - discriminate.
  - repeat constructor; discriminate.
Defined.

(** The sample module, analysed. *)
Example analyze_sample_module :
  let v := DocstringVisitor.analyze sample_module in
  DocstringVisitor.stats v Emodule = DocstringVisitor.mkCounts 1 1 /\
  DocstringVisitor.stats v Eclass = DocstringVisitor.mkCounts 1 1 /\
  DocstringVisitor.stats v Efunction = DocstringVisitor.mkCounts 2 0 /\
  DocstringVisitor.stats v Emethod = DocstringVisitor.mkCounts 3 1 /\
  DocstringVisitor.undocumented v Efunction = [py "main"; py "handler"] /\
  DocstringVisitor.undocumented v Emethod
  = [py "Visitor.helper"; py "Visitor.inner"].
Proof. by vm_compute. Qed.
